(** * Dual moving-average strategy: the event-driven backtest engine

    A shallow embedding of [src/strategy/strat_temp.py] ([calc_atr],
    [run_backtest]) together with the default arguments of the vectorised
    sibling [src/backtest/vbt.py], and the properties of the engine that the
    specification states.

    Numbers.  The engine computes on IEEE binary64 values held in pandas
    columns.  Every finite value is idealised here as an exact rational and
    the missing-value marker NaN is kept explicit, because the control flow of
    the engine depends on it: every ordered comparison with NaN is false,
    [rolling(w).mean()] yields NaN until [w] observations are in the window,
    and [max(axis=1)] skips NaN.  Rounding, overflow and signed zeros are not
    modelled.

    pandas.  The library calls are embedded with the behaviour the library
    documents: [Series.rolling(w)] raises [ValueError] for a negative window
    and accepts zero, [min_periods] defaults to the window length,
    [shift(1)] fills the first slot with NaN, [DataFrame.copy()] is a deep
    copy, [DataFrame.iloc[i]] wraps a negative position once and raises
    [IndexError] out of range. *)

From Stdlib Require Import ZArith QArith Qabs Qminmax Lia Lqa Floats.
From stdpp Require Import base option list gmap strings.

Local Open Scope Z_scope.

(** ** Errors raised by the embedded Python code *)

Inductive error : Type :=
| ValueError
| IndexError
| KeyError.

Inductive result (A : Type) : Type :=
| Ok (a : A)
| Err (e : error).
Arguments Ok {A} a.
Arguments Err {A} e.

#[global] Instance result_ret : MRet result := fun _ a => Ok a.
#[global] Instance result_bind : MBind result := fun _ _ f m =>
  match m with
  | Ok a => f a
  | Err e => Err e
  end.

(** ** Numbers: a finite value or NaN *)

Inductive num : Type :=
| NaN
| Fin (q : Q).

Definition fadd (x y : num) : num :=
  match x, y with
  | Fin a, Fin b => Fin (a + b)
  | _, _ => NaN
  end.

Definition fsub (x y : num) : num :=
  match x, y with
  | Fin a, Fin b => Fin (a - b)
  | _, _ => NaN
  end.

Definition fmul (x y : num) : num :=
  match x, y with
  | Fin a, Fin b => Fin (a * b)
  | _, _ => NaN
  end.

(** A quotient by zero is not a finite value; the engine only divides by an
    entry price, and never inspects the quotient. *)
Definition fdiv (x y : num) : num :=
  match x, y with
  | Fin a, Fin b => if Qeq_bool b 0 then NaN else Fin (a / b)
  | _, _ => NaN
  end.

Definition fabs (x : num) : num :=
  match x with
  | Fin a => Fin (Qabs a)
  | NaN => NaN
  end.

(** [x <= y], [x < y], [x > y]: false as soon as one side is NaN. *)
Definition fle (x y : num) : bool :=
  match x, y with
  | Fin a, Fin b => Qle_bool a b
  | _, _ => false
  end.

Definition flt (x y : num) : bool :=
  match x, y with
  | Fin a, Fin b => negb (Qle_bool b a)
  | _, _ => false
  end.

Definition fgt (x y : num) : bool := flt y x.

Definition is_nan (x : num) : bool :=
  match x with
  | NaN => true
  | Fin _ => false
  end.

(** Numeric equality of two values: the same rational, or both missing. *)
Definition feq (x y : num) : Prop :=
  match x, y with
  | Fin a, Fin b => (a == b)%Q
  | NaN, NaN => True
  | _, _ => False
  end.

Definition of_Z (z : Z) : num := Fin (inject_Z z).

(** ** Series *)

Definition Series := list num.

(** [s.shift(1)] *)
Definition shift1 (s : Series) : Series := take (length s) (NaN :: s).

(** Element-wise [a - b] and [abs(a)] on aligned series. *)
Definition series_sub (a b : Series) : Series := zip_with fsub a b.
Definition series_abs (a : Series) : Series := map fabs a.

(** The observations of a window: its non-missing values. *)
Fixpoint observations (w : list num) : list Q :=
  match w with
  | [] => []
  | NaN :: r => observations r
  | Fin q :: r => q :: observations r
  end.

Definition Qsum (l : list Q) : Q := foldr Qplus 0%Q l.

(** The mean of one window under [min_periods = minp]. *)
Definition window_mean (minp : nat) (w : list num) : num :=
  let obs := observations w in
  if decide (minp ≤ length obs ∧ 0 < length obs)%nat
  then Fin (Qsum obs / inject_Z (Z.of_nat (length obs)))
  else NaN.

(** The trailing window of [w] slots that ends at position [i]. *)
Definition window_at (s : Series) (w i : nat) : list num :=
  drop (S i - w) (take (S i) s).

(** [s.rolling(window).mean()] *)
Definition rolling_mean (s : Series) (window : Z) : result Series :=
  if decide (window < 0) then Err ValueError
  else
    let w := Z.to_nat window in
    Ok (map (fun i => window_mean w (window_at s w i)) (seq 0 (length s))).

(** [max] of one row of [pd.concat([...], axis=1)], skipping NaN. *)
Definition row_max (cells : list num) : num :=
  match observations cells with
  | [] => NaN
  | q :: r => Fin (foldl Qmax q r)
  end.

Fixpoint zip3 (a b c : Series) : list (list num) :=
  match a, b, c with
  | x :: a', y :: b', z :: c' => [x; y; z] :: zip3 a' b' c'
  | _, _, _ => []
  end.

(** ** Bars *)

Definition date := Z.

Record Bar : Type := mkBar {
  b_date : date;
  b_open : num;
  b_high : num;
  b_low : num;
  b_close : num;
  b_volume : Z
}.

Definition DataFrame := list Bar.

(** The true-range series of [calc_atr], before averaging. *)
Definition true_range (df : DataFrame) : Series :=
  let high := map b_high df in
  let low := map b_low df in
  let close := map b_close df in
  let tr1 := series_sub high low in
  let tr2 := series_abs (series_sub high (shift1 close)) in
  let tr3 := series_abs (series_sub low (shift1 close)) in
  map row_max (zip3 tr1 tr2 tr3).

Definition calc_atr (df : DataFrame) (period : Z) : result Series :=
  rolling_mean (true_range df) period.

(** ** The frame the engine iterates over

    The caller's columns together with the four columns [run_backtest] adds
    to its copy: [ma_fast], [ma_slow], [atr], [uptrend]. *)

Record Row : Type := mkRow {
  r_date : date;
  r_open : num;
  r_high : num;
  r_low : num;
  r_close : num;
  r_volume : Z;
  r_ma_fast : num;
  r_ma_slow : num;
  r_atr : num;
  r_uptrend : bool
}.

Definition Frame := list Row.

Fixpoint add_columns (df : DataFrame) (ma_fast ma_slow atr : Series)
    (uptrend : list bool) : Frame :=
  match df, ma_fast, ma_slow, atr, uptrend with
  | b :: df', f :: mf', s :: ms', a :: at', u :: up' =>
      mkRow (b_date b) (b_open b) (b_high b) (b_low b) (b_close b) (b_volume b)
            f s a u
      :: add_columns df' mf' ms' at' up'
  | _, _, _, _, _ => []
  end.

(** [df.iloc[i]] for an integer position. *)
Definition iloc (df : Frame) (i : Z) : result Row :=
  let n := Z.of_nat (length df) in
  let j := if decide (i < 0) then i + n else i in
  if decide (0 <= j < n) then
    match df !! Z.to_nat j with
    | Some row => Ok row
    | None => Err IndexError
    end
  else Err IndexError.

(** [range(a, b)] *)
Definition range (a b : Z) : list Z :=
  map (fun k => a + Z.of_nat k) (seq 0 (Z.to_nat (b - a))).

(** ** Parameters and their defaults *)

Record Params : Type := mkParams {
  ma_fast : Z;
  ma_slow : Z;
  atr_period : Z;
  atr_multiplier : num
}.

(** Keyword arguments of a call: [None] where the caller passes nothing. *)
Record Kwargs : Type := mkKwargs {
  kw_ma_fast : option Z;
  kw_ma_slow : option Z;
  kw_atr_period : option Z;
  kw_atr_multiplier : option num
}.

Definition no_kwargs : Kwargs := mkKwargs None None None None.

(** The signature of [strategy/strat_temp.py:run_backtest]. *)
Definition bind_params (kw : Kwargs) : Params :=
  {| ma_fast := default 5 (kw_ma_fast kw);
     ma_slow := default 20 (kw_ma_slow kw);
     atr_period := default 14 (kw_atr_period kw);
     atr_multiplier := default (of_Z 2) (kw_atr_multiplier kw) |}.

Module Vbt.
(** The signature of [backtest/vbt.py:run_backtest]. *)
Record Params : Type := mkParams {
  ma_fast : Z;
  ma_slow : Z;
  atr_period : Z;
  atr_multiplier : num;
  init_cash : num
}.

Definition bind_params (kw : Kwargs) (kw_init_cash : option num) : Params :=
  {| ma_fast := default 20 (kw_ma_fast kw);
     ma_slow := default 60 (kw_ma_slow kw);
     atr_period := default 14 (kw_atr_period kw);
     atr_multiplier := default (of_Z 2) (kw_atr_multiplier kw);
     init_cash := default (of_Z 100000) kw_init_cash |}.
End Vbt.

(** ** Positions and trades *)

Record Position : Type := mkPosition {
  entry_date : date;
  entry_price : num;
  stop_loss : num
}.

(** The two exit reasons, the strings "止损" and "趋势反转" of the source. *)
Inductive Reason : Type :=
| StopLoss
| TrendReversal.

Record Trade : Type := mkTrade {
  t_entry_date : date;
  t_entry_price : num;
  t_exit_date : date;
  t_exit_price : num;
  t_pnl_pct : num;
  t_reason : Reason
}.

(** The loop state: the [position] slot and the [trades] list. *)
Record State : Type := mkState {
  position : option Position;
  trades : list Trade
}.

Definition initial : State := mkState None [].

(** One pass through the body of [for i in range(ma_slow, len(df))]. *)
Definition step (atr_multiplier : num) (df : Frame) (st : State) (i : Z)
    : result State :=
  row ← iloc df i;
  prev ← iloc df (i - 1);
  match position st with
  | None =>
      if r_uptrend row
         && (fle (r_close prev) (r_ma_fast prev)
             && flt (r_ma_fast prev) (r_close row))
      then
        mret {| position :=
                  Some {| entry_date := r_date row;
                          entry_price := r_close row;
                          stop_loss :=
                            fsub (r_close row)
                                 (fmul atr_multiplier (r_atr row)) |};
                trades := trades st |}
      else mret st
  | Some position =>
      let exit :=
        if fle (r_low row) (stop_loss position)
        then Some (StopLoss, stop_loss position)
        else if r_uptrend prev && negb (r_uptrend row)
             then Some (TrendReversal, r_close row)
             else None in
      match exit with
      | Some (exit_reason, exit_price) =>
          let pnl :=
            fdiv (fsub exit_price (entry_price position))
                 (entry_price position) in
          mret {| position := None;
                  trades :=
                    trades st
                    ++ [ {| t_entry_date := entry_date position;
                            t_entry_price := entry_price position;
                            t_exit_date := r_date row;
                            t_exit_price := exit_price;
                            t_pnl_pct := fmul pnl (of_Z 100);
                            t_reason := exit_reason |} ] |}
      | None => mret st
      end
  end.

Fixpoint loop (atr_multiplier : num) (df : Frame) (ixs : list Z) (st : State)
    : result State :=
  match ixs with
  | [] => Ok st
  | i :: rest =>
      st' ← step atr_multiplier df st i;
      loop atr_multiplier df rest st'
  end.

(** The frame after the four column assignments. *)
Definition indicators (df : DataFrame) (cfg : Params) : result Frame :=
  let close := map b_close df in
  f ← rolling_mean close (ma_fast cfg);
  s ← rolling_mean close (ma_slow cfg);
  a ← calc_atr df (atr_period cfg);
  mret (add_columns df f s a (zip_with fgt f s)).

(** The final loop state. *)
Definition final_state (df : DataFrame) (cfg : Params) : result State :=
  fr ← indicators df cfg;
  loop (atr_multiplier cfg) fr
       (range (ma_slow cfg) (Z.of_nat (length fr))) initial.

Definition run_backtest (df : DataFrame) (cfg : Params) : result (list Trade) :=
  st ← final_state df cfg;
  mret (trades st).

(** ** The journal of a run

    The engine keeps no record of what it did at each bar.  The journal is
    that record: the branch the loop body took at every index it visited,
    read off the branches of the loop body. *)

(** What one bar does to the state. *)
Inductive Action : Type :=
| Hold
| Enter (p : Position)
| Exit (t : Trade).

(** The entry test of a flat engine. *)
Definition entry_signal (row prev : Row) : bool :=
  r_uptrend row
  && (fle (r_close prev) (r_ma_fast prev) && flt (r_ma_fast prev) (r_close row)).

Definition open_position (atr_multiplier : num) (row : Row) : Position :=
  {| entry_date := r_date row;
     entry_price := r_close row;
     stop_loss := fsub (r_close row) (fmul atr_multiplier (r_atr row)) |}.

(** The exit test of an engine holding [p]: the reason and the fill price. *)
Definition exit_signal (p : Position) (row prev : Row) : option (Reason * num) :=
  if fle (r_low row) (stop_loss p) then Some (StopLoss, stop_loss p)
  else if r_uptrend prev && negb (r_uptrend row)
       then Some (TrendReversal, r_close row)
       else None.

Definition close_position (p : Position) (row : Row) (exit_reason : Reason)
    (exit_price : num) : Trade :=
  let pnl := fdiv (fsub exit_price (entry_price p)) (entry_price p) in
  {| t_entry_date := entry_date p;
     t_entry_price := entry_price p;
     t_exit_date := r_date row;
     t_exit_price := exit_price;
     t_pnl_pct := fmul pnl (of_Z 100);
     t_reason := exit_reason |}.

(** The branch taken by the loop body at one bar. *)
Definition decide_action (atr_multiplier : num) (pos : option Position)
    (row prev : Row) : Action :=
  match pos with
  | None =>
      if entry_signal row prev then Enter (open_position atr_multiplier row)
      else Hold
  | Some p =>
      match exit_signal p row prev with
      | Some (exit_reason, exit_price) =>
          Exit (close_position p row exit_reason exit_price)
      | None => Hold
      end
  end.

(** Its effect on [position] and [trades]. *)
Definition apply_action (st : State) (a : Action) : State :=
  match a with
  | Hold => st
  | Enter p => {| position := Some p; trades := trades st |}
  | Exit t => {| position := None; trades := trades st ++ [t] |}
  end.

(** The action at bar [i]: the two [iloc] reads, then the branch. *)
Definition action (atr_multiplier : num) (df : Frame)
    (pos : option Position) (i : Z) : result Action :=
  row ← iloc df i;
  prev ← iloc df (i - 1);
  mret (decide_action atr_multiplier pos row prev).

Definition next_position (pos : option Position) (a : Action)
    : option Position :=
  match a with
  | Hold => pos
  | Enter p => Some p
  | Exit _ => None
  end.

Fixpoint journal (atr_multiplier : num) (df : Frame) (ixs : list Z)
    (pos : option Position) : result (list (Z * Action)) :=
  match ixs with
  | [] => Ok []
  | i :: rest =>
      a ← action atr_multiplier df pos i;
      j ← journal atr_multiplier df rest (next_position pos a);
      mret ((i, a) :: j)
  end.

(** The trades a journal closes, in order. *)
Fixpoint exits (j : list (Z * Action)) : list Trade :=
  match j with
  | [] => []
  | (_, Exit t) :: r => t :: exits r
  | _ :: r => exits r
  end.

(** The positions a journal opens, in order. *)
Fixpoint enters (j : list (Z * Action)) : list Position :=
  match j with
  | [] => []
  | (_, Enter p) :: r => p :: enters r
  | _ :: r => enters r
  end.

(** The position left open by a journal started from [pos]. *)
Definition position_after (pos : option Position) (j : list (Z * Action))
    : option Position :=
  foldl next_position pos (map snd j).

(** A closed position with the bars of its entry and of its exit. *)
Record Fill : Type := mkFill {
  fill_entry_bar : Z;
  fill_opened : Position;
  fill_exit_bar : Z;
  fill_trade : Trade
}.

(** Each [Exit] of a journal paired with the [Enter] before it. *)
Fixpoint fills (opened : option (Z * Position)) (j : list (Z * Action))
    : list Fill :=
  match j with
  | [] => []
  | (_, Hold) :: r => fills opened r
  | (i, Enter p) :: r => fills (Some (i, p)) r
  | (i, Exit t) :: r =>
      match opened with
      | Some (e, p) => mkFill e p i t :: fills None r
      | None => fills None r
      end
  end.

(** Entry before exit within a fill, and each fill after the one before. *)
Fixpoint chained (lo : Z) (fs : list Fill) : Prop :=
  match fs with
  | [] => True
  | f :: r =>
      lo <= fill_entry_bar f
      ∧ fill_entry_bar f < fill_exit_bar f
      ∧ chained (fill_exit_bar f + 1) r
  end.

(** One for an open position, zero for none. *)
Definition open_count (pos : option Position) : nat :=
  match pos with
  | Some _ => 1
  | None => 0
  end.

(** The [Enter] a fill is paired with is the position the engine holds. *)
Definition tracks (opened : option (Z * Position)) (pos : option Position)
    : Prop :=
  snd <$> opened = pos.

(** Indices that increase from [lo]. *)
Fixpoint increasing_from (lo : Z) (ixs : list Z) : Prop :=
  match ixs with
  | [] => True
  | i :: r => lo <= i ∧ increasing_from (i + 1) r
  end.

(** The journal and the loop state of a whole run, up to bar [i]
    (exclusive). *)
Definition journal_before (df : DataFrame) (cfg : Params) (i : Z)
    : result (list (Z * Action)) :=
  fr ← indicators df cfg;
  journal (atr_multiplier cfg) fr (range (ma_slow cfg) i) None.

Definition state_before (df : DataFrame) (cfg : Params) (i : Z)
    : result State :=
  fr ← indicators df cfg;
  loop (atr_multiplier cfg) fr (range (ma_slow cfg) i) initial.

Definition bar_journal (df : DataFrame) (cfg : Params)
    : result (list (Z * Action)) :=
  journal_before df cfg (Z.of_nat (length df)).

Definition date_at (df : DataFrame) (i : Z) : option date :=
  if decide (0 <= i) then b_date <$> df !! Z.to_nat i else None.

(** ** Frames as objects

    [run_backtest] rebinds its parameter to [df.copy()] and assigns four
    columns to that object.  To speak about what the caller observes, frames
    live in a store of objects addressed by references; a column assignment
    updates the object in place. *)

Inductive Column : Type :=
| FloatCol (s : Series)
| BoolCol (l : list bool).

Record FrameObj : Type := mkFrameObj {
  obj_bars : DataFrame;
  obj_added : gmap string Column
}.

Abbreviation Ref := positive.
Abbreviation Store := (gmap positive FrameObj).

(** A computation on the store that may raise. *)
Definition Py (A : Type) : Type := Store → Store * result A.

Definition py_ret {A} (a : A) : Py A := fun h => (h, Ok a).

Definition py_bind {A B} (m : Py A) (f : A → Py B) : Py B := fun h =>
  match m h with
  | (h', Ok a) => f a h'
  | (h', Err e) => (h', Err e)
  end.

Definition py_lift {A} (r : result A) : Py A := fun h => (h, r).

Notation "x ⇐ m ; k" := (py_bind m (fun x => k))
  (at level 20, m at level 100, k at level 200, only parsing).

(** Reading the object behind a reference. *)
Definition py_deref (df : Ref) : Py FrameObj := fun h =>
  match h !! df with
  | Some o => (h, Ok o)
  | None => (h, Err KeyError)
  end.

(** [df.copy()]: a new object with the same content. *)
Definition py_copy (df : Ref) : Py Ref := fun h =>
  match h !! df with
  | Some o => let r := fresh (dom h) in (<[r := o]> h, Ok r)
  | None => (h, Err KeyError)
  end.

(** [df[name] = col]: in place, on the object [df] refers to. *)
Definition py_setitem (df : Ref) (name : string) (col : Column) : Py unit :=
  fun h =>
    match h !! df with
    | Some o =>
        (<[df := mkFrameObj (obj_bars o) (<[name := col]> (obj_added o))]> h,
         Ok tt)
    | None => (h, Err KeyError)
    end.

Definition added_floats (o : FrameObj) (name : string) : result Series :=
  match obj_added o !! name with
  | Some (FloatCol s) => Ok s
  | _ => Err KeyError
  end.

Definition added_bools (o : FrameObj) (name : string) : result (list bool) :=
  match obj_added o !! name with
  | Some (BoolCol l) => Ok l
  | _ => Err KeyError
  end.

(** The rows [iloc] reads from an object. *)
Definition obj_frame (o : FrameObj) : result Frame :=
  f ← added_floats o "ma_fast";
  s ← added_floats o "ma_slow";
  a ← added_floats o "atr";
  u ← added_bools o "uptrend";
  mret (add_columns (obj_bars o) f s a u).

(** [run_backtest] on the store: the parameter [df] is a reference. *)
Definition run_backtest_obj (df : Ref) (cfg : Params) : Py (list Trade) :=
  df ⇐ py_copy df;
  o ⇐ py_deref df;
  f ⇐ py_lift (rolling_mean (map b_close (obj_bars o)) (ma_fast cfg));
  _ ⇐ py_setitem df "ma_fast" (FloatCol f);
  o ⇐ py_deref df;
  s ⇐ py_lift (rolling_mean (map b_close (obj_bars o)) (ma_slow cfg));
  _ ⇐ py_setitem df "ma_slow" (FloatCol s);
  o ⇐ py_deref df;
  a ⇐ py_lift (calc_atr (obj_bars o) (atr_period cfg));
  _ ⇐ py_setitem df "atr" (FloatCol a);
  o ⇐ py_deref df;
  f ⇐ py_lift (added_floats o "ma_fast");
  s ⇐ py_lift (added_floats o "ma_slow");
  _ ⇐ py_setitem df "uptrend" (BoolCol (zip_with fgt f s));
  o ⇐ py_deref df;
  fr ⇐ py_lift (obj_frame o);
  st ⇐ py_lift (loop (atr_multiplier cfg) fr
                     (range (ma_slow cfg) (Z.of_nat (length fr))) initial);
  py_ret (trades st).

(** A computation that leaves every object but [x] as it found it. *)
Definition writes_only {A} (x : Ref) (m : Py A) : Prop :=
  ∀ (h : Store) (r : Ref), r ≠ x → (m h).1 !! r = h !! r.

(** ** The profit formula on binary64

    [t_pnl_pct] on the machine numbers of the source, to check the two
    values of the specification against rounding. *)
Definition pnl_pct_binary64 (entry_price exit_price : float) : float :=
  ((exit_price - entry_price) / entry_price * 100)%float.

(** ** Sample data *)

Definition bar (d : date) (high low close : Z) : Bar :=
  mkBar d (of_Z close) (of_Z high) (of_Z low) (of_Z close) 1000.

Definition tight : Params := mkParams 1 2 1 (of_Z 2).

(** Three rising closes, a peak, then a lower close: one entry at the third
    bar (close 100, stop 90) and a trend reversal at the fifth (close 110). *)
Definition rally : DataFrame :=
  [bar 1 90 90 90; bar 2 95 95 95; bar 3 100 100 100; bar 4 120 120 120;
   bar 5 110 110 110].

Definition rally_entry : Position := mkPosition 3 (of_Z 100) (of_Z 90).

(** The same entry, then a bar whose low touches the stop. *)
Definition washout : DataFrame :=
  [bar 1 90 90 90; bar 2 95 95 95; bar 3 100 100 100; bar 4 96 90 92].

(** The same entry, and nothing after the next bar. *)
Definition unfinished : DataFrame :=
  [bar 1 90 90 90; bar 2 95 95 95; bar 3 100 100 100; bar 4 120 120 120].

(** [rally] followed by a second rise and fall: entries at the third and
    sixth bars, trend reversals at the fifth and seventh. *)
Definition two_rallies : DataFrame :=
  rally ++ [bar 6 115 115 115; bar 7 112 112 112].

(** The caller's frame of the examples, at reference 1. *)
Definition caller_store : Store := {[1%positive := mkFrameObj rally ∅]}.

(** A fast window longer than the slow one, and four closes that cross at
    the last bar. *)
Definition late_fast : Params := mkParams 3 2 1 (of_Z 2).

Definition dip : DataFrame :=
  [bar 1 90 90 90; bar 2 100 100 100; bar 3 80 80 80; bar 4 95 95 95].

(** The close before bar [k]: missing at the first bar. *)
Definition prev_close (df : DataFrame) (k : nat) : num :=
  match k with
  | O => NaN
  | S k' => default NaN (b_close <$> df !! k')
  end.

(** The input contract of the data source: dates ascending, no duplicates. *)
Definition dates_increasing (df : DataFrame) : Prop :=
  ∀ (i j : nat) (b b' : Bar),
    (i < j)%nat → df !! i = Some b → df !! j = Some b' →
    b_date b < b_date b'.

(** An ATR period longer than the warm-up of the averages. *)
Definition slow_atr : Params := mkParams 1 2 5 (of_Z 2).

(** A caller's frame that already carries columns under the engine's
    names, beside an unrelated frame. *)
Definition stale_store : Store :=
  {[ 1%positive :=
       mkFrameObj rally
         (<["uptrend" := BoolCol [true; true]]>
            {["ma_fast" := FloatCol [NaN]]});
     2%positive := mkFrameObj washout ∅ ]}.

(** ** Reports: [print_stats] and [main] of strategy/strat_temp.py

    What is printed is kept as a list of lines; a number that a line
    formats ([:.1f], [:.2f]) is kept as the number handed to the format. *)

Inductive Line : Type :=
| BacktestingLine (ticker : string)
| NoDataLine (ticker : string)
| NoTradesLine (ticker : string)
| RuleLine
| TitleLine (ticker : string)
| CountLine (n : nat)
| WinRateLine (x : num)
| MeanLine (x : num)
| MaxLine (x : num)
| MinLine (x : num)
| SumLine (x : num).

(** [s.mean()], [s.max()], [s.min()], [s.sum()] of a float column: missing
    values are skipped; the mean and the extremes of nothing are NaN, the
    sum of nothing is 0. *)
Definition series_mean (s : Series) : num := window_mean 0 s.

Definition series_max (s : Series) : num := row_max s.

Definition series_min (s : Series) : num :=
  match observations s with
  | [] => NaN
  | q :: r => Fin (foldl Qmin q r)
  end.

Definition series_sum (s : Series) : num := Fin (Qsum (observations s)).

(** [trades[trades["pnl_pct"] > 0]] *)
Definition winning (trades : list Trade) : list Trade :=
  List.filter (fun t => fgt (t_pnl_pct t) (of_Z 0)) trades.

Definition print_stats (trades : list Trade) (ticker : string) : list Line :=
  match trades with
  | [] => [NoTradesLine ticker]
  | _ :: _ =>
      let wins := winning trades in
      let pnl_pct := map t_pnl_pct trades in
      [ RuleLine; TitleLine ticker; RuleLine;
        CountLine (length trades);
        WinRateLine
          (fmul (fdiv (of_Z (Z.of_nat (length wins)))
                      (of_Z (Z.of_nat (length trades))))
                (of_Z 100));
        MeanLine (series_mean pnl_pct);
        MaxLine (series_max pnl_pct);
        MinLine (series_min pnl_pct);
        SumLine (series_sum pnl_pct) ]
  end.

(** A row of the frame [main] returns: a trade and its [ticker] column. *)
Definition TaggedTrade : Type := Trade * string.

Section Main.

(** [load_data(db_path, ticker)]: the bars the database holds for a ticker,
    or the error the database raises. *)
Variable load_data : string → string → result DataFrame.

(** The body of [for ticker in tickers], with [all_trades] threaded. *)
Fixpoint main_loop (db_path : string) (tickers : list string)
    (all_trades : list (list TaggedTrade))
    : list Line * result (list (list TaggedTrade)) :=
  match tickers with
  | [] => ([], Ok all_trades)
  | ticker :: rest =>
      match load_data db_path ticker with
      | Err e => ([BacktestingLine ticker], Err e)
      | Ok [] =>
          let (out, r) := main_loop db_path rest all_trades in
          (BacktestingLine ticker :: NoDataLine ticker :: out, r)
      | Ok df =>
          match run_backtest df (bind_params no_kwargs) with
          | Err e => ([BacktestingLine ticker], Err e)
          | Ok trades =>
              let tagged := map (fun t => (t, ticker)) trades in
              let (out, r) :=
                main_loop db_path rest (all_trades ++ [tagged]) in
              (BacktestingLine ticker :: print_stats trades ticker ++ out, r)
          end
      end
  end.

Definition main (db_path : option string) (tickers : option (list string))
    : list Line * result (list TaggedTrade) :=
  let db_path := default "stock_data.db" db_path in
  let tickers := default ["QQQ"] tickers in
  let (out, r) := main_loop db_path tickers [] in
  (out,
   all_trades ← r;
   match all_trades with
   | [] => mret []
   | _ :: _ => mret (concat all_trades)
   end).

(** One ticker on its own: the rows it contributes and the lines it
    prints. *)
Definition ticker_rows (db_path ticker : string) : list TaggedTrade :=
  match load_data db_path ticker with
  | Ok df =>
      match run_backtest df (bind_params no_kwargs) with
      | Ok trades => map (fun t => (t, ticker)) trades
      | Err _ => []
      end
  | Err _ => []
  end.

Definition ticker_lines (db_path ticker : string) : list Line :=
  BacktestingLine ticker
  :: match load_data db_path ticker with
     | Ok [] => [NoDataLine ticker]
     | Ok df =>
         match run_backtest df (bind_params no_kwargs) with
         | Ok trades => print_stats trades ticker
         | Err _ => []
         end
     | Err _ => []
     end.

End Main.

(** ** Reading a statistic: [get_stat] of backtest/vbt.py:print_stats

    [stats] is the labelled series [pf.stats()] returns. *)

Module VbtReport.

(** [get_stat(keys)] on a list of candidate labels. *)
Fixpoint get_stat_list (stats : gmap string num) (keys : list string)
    : option num :=
  match keys with
  | [] => None
  | k :: rest =>
      match stats !! k with
      | Some v => Some v
      | None => get_stat_list stats rest
      end
  end.

(** [get_stat(keys)]: a single string stands for the list holding it. *)
Definition get_stat (stats : gmap string num) (keys : string + list string)
    : option num :=
  match keys with
  | inl k => get_stat_list stats [k]
  | inr ks => get_stat_list stats ks
  end.

(** The truth value of [x] in [f"..." if x else "...N/A"]: [None] and zero
    are false, every other number and NaN are true. *)
Definition truthy (x : option num) : bool :=
  match x with
  | None => false
  | Some NaN => true
  | Some (Fin q) => negb (Qeq_bool q 0)
  end.

(** What a line of the report shows: the number, or N/A. *)
Definition shown (x : option num) : option num :=
  if truthy x then x else None.

End VbtReport.

(** Twenty flat bars, a dip, a jump above the fast average, and a fall
    through the stop: one trade under the default parameters. *)
Definition breakout : DataFrame :=
  map (fun k => bar (Z.of_nat k) 100 100 100) (seq 1 20)
  ++ [bar 21 90 90 90; bar 22 120 120 120; bar 23 110 110 110].

(** A database with bars for two tickers and none for any other. *)
Definition sample_db (db_path ticker : string) : result DataFrame :=
  if String.eqb ticker "QQQ" then Ok breakout
  else if String.eqb ticker "SPY" then Ok washout
  else Ok [].

(** * Properties *)

(** ** The error monad *)

Lemma bind_Ok {A B} (m : result A) (f : A → result B) (b : B) :
  m ≫= f = Ok b ↔ ∃ a, m = Ok a ∧ f a = Ok b.
Proof.
  destruct m as [a|e]; simpl; split.
  - intros H. exists a. split; [reflexivity | exact H].
  - intros [a' [Ha Hf]]. injection Ha as ->. exact Hf.
  - discriminate.
  - intros [a' [Ha _]]. discriminate.
Qed.

(** ** Series and frames keep their length *)

Lemma rolling_mean_Ok (s : Series) (w : Z) :
  0 <= w →
  rolling_mean s w
  = Ok (map (fun i => window_mean (Z.to_nat w) (window_at s (Z.to_nat w) i))
            (seq 0 (length s))).
Proof. intros Hw. unfold rolling_mean. case_decide; [lia | reflexivity]. Qed.

Lemma rolling_mean_Err (s : Series) (w : Z) :
  w < 0 → rolling_mean s w = Err ValueError.
Proof. intros Hw. unfold rolling_mean. case_decide; [reflexivity | lia]. Qed.

Lemma rolling_mean_length (s r : Series) (w : Z) :
  rolling_mean s w = Ok r → length r = length s.
Proof.
  unfold rolling_mean. case_decide; [discriminate |].
  intros [= <-]. rewrite length_map, length_seq. reflexivity.
Qed.

Lemma rolling_mean_cases (s : Series) (w : Z) :
  (w < 0 ∧ rolling_mean s w = Err ValueError)
  ∨ (0 <= w ∧ ∃ r, rolling_mean s w = Ok r ∧ length r = length s).
Proof.
  destruct (decide (w < 0)) as [H|H].
  - left. split; [exact H | apply rolling_mean_Err, H].
  - right. split; [lia |]. eexists. split.
    + apply rolling_mean_Ok. lia.
    + rewrite length_map, length_seq. reflexivity.
Qed.

Lemma shift1_length (s : Series) : length (shift1 s) = length s.
Proof. unfold shift1. rewrite length_take. simpl. lia. Qed.

Lemma zip3_length (a b c : Series) :
  length a = length b → length a = length c → length (zip3 a b c) = length a.
Proof.
  revert b c. induction a as [|x a IH]; intros [|y b] [|z c]; simpl;
    try discriminate; try reflexivity.
  intros [= Hb] [= Hc]. f_equal. apply IH; assumption.
Qed.

Lemma true_range_length (df : DataFrame) :
  length (true_range df) = length df.
Proof.
  unfold true_range, series_abs, series_sub.
  rewrite length_map, zip3_length;
    rewrite ?length_map, ?length_zip_with, ?shift1_length, ?length_map; lia.
Qed.

Lemma add_columns_length (df : DataFrame) (f s a : Series) (u : list bool) :
  length f = length df → length s = length df → length a = length df →
  length u = length df →
  length (add_columns df f s a u) = length df.
Proof.
  revert f s a u. induction df as [|b df IH];
    intros [|x f] [|y s] [|z a] [|v u]; simpl; try discriminate;
    try reflexivity.
  intros [= Hf] [= Hs] [= Ha] [= Hu]. f_equal. apply IH; assumption.
Qed.

Lemma indicators_length (df : DataFrame) (cfg : Params) (fr : Frame) :
  indicators df cfg = Ok fr → length fr = length df.
Proof.
  unfold indicators, calc_atr. intros H.
  apply bind_Ok in H as [f [Hf H]]. apply bind_Ok in H as [s [Hs H]].
  apply bind_Ok in H as [a [Ha H]]. injection H as <-.
  apply rolling_mean_length in Hf, Hs, Ha.
  rewrite true_range_length in Ha. rewrite length_map in Hf, Hs.
  apply add_columns_length; try assumption.
  rewrite length_zip_with. lia.
Qed.

(** ** Reading rows *)

Lemma iloc_in_range (fr : Frame) (i : Z) :
  - Z.of_nat (length fr) <= i < Z.of_nat (length fr) →
  ∃ row, iloc fr i = Ok row.
Proof.
  intros Hi. unfold iloc.
  destruct (decide (i < 0)) as [Hneg|Hpos].
  - case_decide as Hj; [| lia].
    destruct (fr !! Z.to_nat (i + Z.of_nat (length fr))) as [row|] eqn:E.
    + exists row. reflexivity.
    + apply lookup_ge_None in E. lia.
  - case_decide as Hj; [| lia].
    destruct (fr !! Z.to_nat i) as [row|] eqn:E.
    + exists row. reflexivity.
    + apply lookup_ge_None in E. lia.
Qed.

Lemma iloc_nonneg (fr : Frame) (i : Z) (row : Row) :
  0 <= i → (iloc fr i = Ok row ↔ fr !! Z.to_nat i = Some row).
Proof.
  intros Hi. unfold iloc. destruct (decide (i < 0)) as [Hneg|_]; [lia |].
  case_decide as Hj.
  - destruct (fr !! Z.to_nat i) as [r|]; split; congruence.
  - split; [discriminate |]. intros E. apply lookup_lt_Some in E. lia.
Qed.

Lemma action_in_range (m : num) (fr : Frame) (pos : option Position) (i : Z) :
  0 <= i < Z.of_nat (length fr) →
  ∃ row prev,
    iloc fr i = Ok row ∧ iloc fr (i - 1) = Ok prev
    ∧ action m fr pos i = Ok (decide_action m pos row prev).
Proof.
  intros Hi.
  destruct (iloc_in_range fr i) as [row Hrow]; [lia |].
  destruct (iloc_in_range fr (i - 1)) as [prev Hprev]; [lia |].
  exists row, prev. repeat split; try assumption.
  unfold action. rewrite Hrow, Hprev. reflexivity.
Qed.

(** ** [range] *)

Lemma range_nil (a b : Z) : b <= a → range a b = [].
Proof.
  intros H. unfold range. replace (Z.to_nat (b - a)) with 0%nat by lia.
  reflexivity.
Qed.

Lemma range_elem (a b i : Z) : In i (range a b) ↔ a <= i < b.
Proof.
  unfold range. rewrite in_map_iff. split.
  - intros [k [<- Hk]]. apply in_seq in Hk. lia.
  - intros Hi. exists (Z.to_nat (i - a)). split; [lia |].
    apply in_seq. lia.
Qed.

Lemma map_seq_offset (a : Z) (s n : nat) :
  map (fun k => a + Z.of_nat k) (seq s n)
  = map (fun k => a + Z.of_nat s + Z.of_nat k) (seq 0 n).
Proof.
  revert s. induction n as [|n IH]; intros s; [reflexivity |].
  simpl. f_equal; [lia |].
  rewrite (IH (S s)), <- seq_shift, map_map. apply map_ext. intros k. lia.
Qed.

Lemma range_split (a b i : Z) :
  a <= i < b → range a b = range a i ++ i :: range (i + 1) b.
Proof.
  intros Hi. unfold range.
  replace (Z.to_nat (b - a))
    with (Z.to_nat (i - a) + S (Z.to_nat (b - (i + 1))))%nat by lia.
  rewrite List.seq_app, map_app. f_equal. simpl. f_equal; [lia |].
  rewrite map_seq_offset. apply map_ext. intros k. lia.
Qed.

(** ** The loop and its journal *)

(** The loop body is the branch it takes followed by the effect of that
    branch. *)
Lemma step_action (m : num) (fr : Frame) (st : State) (i : Z) :
  step m fr st i
  = a ← action m fr (position st) i; mret (apply_action st a).
Proof.
  unfold step, action.
  destruct (iloc fr i) as [row|e]; [| reflexivity].
  destruct (iloc fr (i - 1)) as [prev|e]; [| reflexivity].
  simpl. unfold decide_action, entry_signal, exit_signal.
  destruct st as [[p|] ts]; simpl.
  - destruct (fle (r_low row) (stop_loss p)); [reflexivity |].
    destruct (r_uptrend prev && negb (r_uptrend row)); reflexivity.
  - destruct (r_uptrend row
              && (fle (r_close prev) (r_ma_fast prev)
                  && flt (r_ma_fast prev) (r_close row))); reflexivity.
Qed.

Lemma position_apply_action (st : State) (a : Action) :
  position (apply_action st a) = next_position (position st) a.
Proof. destruct a; reflexivity. Qed.

Lemma trades_apply_action (st : State) (a : Action) (i : Z) :
  trades (apply_action st a) = trades st ++ exits [(i, a)].
Proof. destruct a; simpl; rewrite ?app_nil_r; reflexivity. Qed.

Lemma exits_app (j1 j2 : list (Z * Action)) :
  exits (j1 ++ j2) = exits j1 ++ exits j2.
Proof.
  induction j1 as [|[i [|p|t]] j1 IH]; simpl; rewrite ?IH; reflexivity.
Qed.

Lemma position_after_app (pos : option Position) (j1 j2 : list (Z * Action)) :
  position_after pos (j1 ++ j2) = position_after (position_after pos j1) j2.
Proof. unfold position_after. rewrite map_app, foldl_app. reflexivity. Qed.

(** The loop computes exactly what its journal says: the trades it appends
    are the journal's exits, the position it leaves is the journal's. *)
Lemma loop_journal (m : num) (fr : Frame) (ixs : list Z) (st : State) :
  loop m fr ixs st
  = j ← journal m fr ixs (position st);
    mret (mkState (position_after (position st) j) (trades st ++ exits j)).
Proof.
  revert st. induction ixs as [|i ixs IH]; intros st.
  - simpl. rewrite app_nil_r. destruct st; reflexivity.
  - simpl. rewrite step_action.
    destruct (action m fr (position st) i) as [a|e]; [| reflexivity].
    simpl. rewrite IH, position_apply_action.
    destruct (journal m fr ixs (next_position (position st) a)) as [j|e];
      [| reflexivity].
    simpl. f_equal. f_equal.
    rewrite (trades_apply_action st a i), <- app_assoc. f_equal.
    destruct a; reflexivity.
Qed.

Lemma journal_app (m : num) (fr : Frame) (l1 l2 : list Z)
    (pos : option Position) :
  journal m fr (l1 ++ l2) pos
  = j1 ← journal m fr l1 pos;
    j2 ← journal m fr l2 (position_after pos j1);
    mret (j1 ++ j2).
Proof.
  revert pos. induction l1 as [|i l1 IH]; intros pos.
  - simpl. change (position_after pos []) with pos.
    destruct (journal m fr l2 pos); reflexivity.
  - simpl. destruct (action m fr pos i) as [a|e]; [| reflexivity].
    simpl. rewrite IH.
    destruct (journal m fr l1 (next_position pos a)) as [j1|e];
      [| reflexivity].
    simpl.
    change (position_after pos ((i, a) :: j1))
      with (position_after (next_position pos a) j1).
    destruct (journal m fr l2 _); reflexivity.
Qed.

Lemma journal_indices (m : num) (fr : Frame) (ixs : list Z)
    (pos : option Position) (j : list (Z * Action)) :
  journal m fr ixs pos = Ok j → map fst j = ixs.
Proof.
  revert pos j. induction ixs as [|i ixs IH]; intros pos j.
  - intros [= <-]. reflexivity.
  - simpl. intros H. apply bind_Ok in H as [a [_ H]].
    apply bind_Ok in H as [j' [Hj' H]]. injection H as <-.
    simpl. f_equal. eapply IH, Hj'.
Qed.

Lemma journal_total (m : num) (fr : Frame) (ixs : list Z)
    (pos : option Position) :
  (∀ i, In i ixs → 0 <= i < Z.of_nat (length fr)) →
  ∃ j, journal m fr ixs pos = Ok j.
Proof.
  revert pos. induction ixs as [|i ixs IH]; intros pos Hix.
  - exists []. reflexivity.
  - destruct (action_in_range m fr pos i) as (row & prev & _ & _ & Ha).
    { apply Hix. left. reflexivity. }
    destruct (IH (next_position pos (decide_action m pos row prev)))
      as [j Hj].
    { intros k Hk. apply Hix. right. exact Hk. }
    eexists. simpl. rewrite Ha. simpl. rewrite Hj. reflexivity.
Qed.

(** ** When the indicator columns exist *)

Lemma indicators_Ok_iff (df : DataFrame) (cfg : Params) :
  (∃ fr, indicators df cfg = Ok fr)
  ↔ 0 <= ma_fast cfg ∧ 0 <= ma_slow cfg ∧ 0 <= atr_period cfg.
Proof.
  unfold indicators, calc_atr.
  destruct (rolling_mean_cases (map b_close df) (ma_fast cfg))
    as [[Hf Ef]|[Hf [f [Ef _]]]]; rewrite Ef; simpl.
  { split; [intros [fr H]; discriminate | lia]. }
  destruct (rolling_mean_cases (map b_close df) (ma_slow cfg))
    as [[Hs Es]|[Hs [s [Es _]]]]; rewrite Es; simpl.
  { split; [intros [fr H]; discriminate | lia]. }
  destruct (rolling_mean_cases (true_range df) (atr_period cfg))
    as [[Ha Ea]|[Ha [a [Ea _]]]]; rewrite Ea; simpl.
  { split; [intros [fr H]; discriminate | lia]. }
  split; [lia | intros _; eexists; reflexivity].
Qed.

Lemma indicators_Err (df : DataFrame) (cfg : Params) :
  ma_fast cfg < 0 ∨ ma_slow cfg < 0 ∨ atr_period cfg < 0 →
  indicators df cfg = Err ValueError.
Proof.
  intros H. unfold indicators, calc_atr.
  destruct (rolling_mean_cases (map b_close df) (ma_fast cfg))
    as [[Hf Ef]|[Hf [f [Ef _]]]]; rewrite Ef; simpl; [reflexivity |].
  destruct (rolling_mean_cases (map b_close df) (ma_slow cfg))
    as [[Hs Es]|[Hs [s [Es _]]]]; rewrite Es; simpl; [reflexivity |].
  destruct (rolling_mean_cases (true_range df) (atr_period cfg))
    as [[Ha Ea]|[Ha [a [Ea _]]]]; rewrite Ea; simpl; [reflexivity |].
  lia.
Qed.

(** ** A run and its journal *)

Lemma state_before_journal (df : DataFrame) (cfg : Params) (i : Z) :
  state_before df cfg i
  = j ← journal_before df cfg i;
    mret (mkState (position_after None j) (exits j)).
Proof.
  unfold state_before, journal_before.
  destruct (indicators df cfg) as [fr|e]; [| reflexivity].
  simpl. rewrite loop_journal. reflexivity.
Qed.

Lemma final_state_before (df : DataFrame) (cfg : Params) :
  final_state df cfg = state_before df cfg (Z.of_nat (length df)).
Proof.
  unfold final_state, state_before.
  destruct (indicators df cfg) as [fr|e] eqn:E; [| reflexivity].
  simpl. rewrite (indicators_length _ _ _ E). reflexivity.
Qed.

Lemma run_backtest_journal (df : DataFrame) (cfg : Params) :
  run_backtest df cfg = j ← bar_journal df cfg; mret (exits j).
Proof.
  unfold run_backtest, bar_journal.
  rewrite final_state_before, state_before_journal.
  destruct (journal_before df cfg _); reflexivity.
Qed.

Lemma journal_before_total (df : DataFrame) (cfg : Params) (fr : Frame)
    (i : Z) :
  indicators df cfg = Ok fr → i <= Z.of_nat (length df) →
  ∃ j, journal_before df cfg i = Ok j.
Proof.
  intros E Hi. unfold journal_before. rewrite E. simpl.
  apply journal_total. intros k Hk. apply range_elem in Hk.
  assert (∃ fr', indicators df cfg = Ok fr') as H by (eexists; exact E).
  apply indicators_Ok_iff in H.
  rewrite (indicators_length _ _ _ E). lia.
Qed.

(** With non-negative windows the engine returns a ledger. *)
Lemma run_backtest_total (df : DataFrame) (cfg : Params) :
  0 <= ma_fast cfg → 0 <= ma_slow cfg → 0 <= atr_period cfg →
  ∃ ledger, run_backtest df cfg = Ok ledger.
Proof.
  intros Hf Hs Ha.
  destruct (proj2 (indicators_Ok_iff df cfg)) as [fr E]; [lia |].
  destruct (journal_before_total df cfg fr (Z.of_nat (length df)) E)
    as [j Hj]; [lia |].
  exists (exits j). rewrite run_backtest_journal. unfold bar_journal.
  rewrite Hj. reflexivity.
Qed.

(** ** The rows of the engine's frame *)

Lemma add_columns_lookup (df : DataFrame) (f s a : Series) (u : list bool)
    (k : nat) (row : Row) :
  add_columns df f s a u !! k = Some row →
  ∃ b x y z v,
    df !! k = Some b ∧ f !! k = Some x ∧ s !! k = Some y ∧ a !! k = Some z
    ∧ u !! k = Some v
    ∧ row = mkRow (b_date b) (b_open b) (b_high b) (b_low b) (b_close b)
                  (b_volume b) x y z v.
Proof.
  revert f s a u k. induction df as [|b df IH];
    intros [|x f] [|y s] [|z a] [|v u] k; simpl; try discriminate.
  destruct k as [|k]; simpl.
  - intros [= <-]. exists b, x, y, z, v. repeat split; reflexivity.
  - apply IH.
Qed.

(** A row of the frame carries its bar, and its [uptrend] flag is the
    comparison of its two averages. *)
Lemma indicators_row (df : DataFrame) (cfg : Params) (fr : Frame) (k : nat)
    (row : Row) :
  indicators df cfg = Ok fr → fr !! k = Some row →
  r_uptrend row = fgt (r_ma_fast row) (r_ma_slow row)
  ∧ ∃ b, df !! k = Some b
         ∧ r_date row = b_date b ∧ r_high row = b_high b
         ∧ r_low row = b_low b ∧ r_close row = b_close b.
Proof.
  unfold indicators. intros H Hk.
  apply bind_Ok in H as [f [_ H]]. apply bind_Ok in H as [s [_ H]].
  apply bind_Ok in H as [a [_ H]]. injection H as <-.
  apply add_columns_lookup in Hk
    as (b & x & y & z & v & Hb & Hx & Hy & _ & Hv & ->).
  simpl. split.
  - apply lookup_zip_with_Some in Hv as (x' & y' & -> & Hx' & Hy').
    unfold Series in *. congruence.
  - exists b. repeat split. exact Hb.
Qed.

(** ** Reading a journal *)

Lemma journal_split (m : num) (fr : Frame) (ixs : list Z)
    (pos : option Position) (j1 j2 : list (Z * Action)) (i : Z) (a : Action) :
  journal m fr ixs pos = Ok (j1 ++ (i, a) :: j2) →
  journal m fr (map fst j1) pos = Ok j1
  ∧ action m fr (position_after pos j1) i = Ok a
  ∧ ixs = map fst j1 ++ i :: map fst j2.
Proof.
  revert ixs pos. induction j1 as [|[i1 a1] j1 IH]; intros ixs pos H.
  - pose proof (journal_indices _ _ _ _ _ H) as Hix. simpl in Hix.
    subst ixs. simpl in H.
    apply bind_Ok in H as [a' [Ha H]]. apply bind_Ok in H as [j' [_ H]].
    injection H as -> ->. repeat split. exact Ha.
  - pose proof (journal_indices _ _ _ _ _ H) as Hix. simpl in Hix.
    subst ixs. simpl in H.
    apply bind_Ok in H as [a' [Ha H]]. apply bind_Ok in H as [j' [Hj' H]].
    injection H as -> ->.
    destruct (IH _ _ Hj') as (H1 & H2 & H3).
    repeat split.
    + simpl. rewrite Ha. simpl. rewrite H1. reflexivity.
    + exact H2.
    + simpl. rewrite map_app. reflexivity.
Qed.

Lemma action_inv (m : num) (fr : Frame) (pos : option Position) (i : Z)
    (a : Action) :
  action m fr pos i = Ok a →
  ∃ row prev,
    iloc fr i = Ok row ∧ iloc fr (i - 1) = Ok prev
    ∧ a = decide_action m pos row prev.
Proof.
  unfold action. intros H.
  apply bind_Ok in H as [row [Hrow H]]. apply bind_Ok in H as [prev [Hprev H]].
  injection H as <-. exists row, prev. repeat split; assumption.
Qed.

Lemma range_lookup (a b : Z) (k : nat) (i : Z) :
  range a b !! k = Some i → i = a + Z.of_nat k ∧ i < b.
Proof.
  unfold range. rewrite list_lookup_fmap. intros H.
  destruct (seq 0 (Z.to_nat (b - a)) !! k) as [k'|] eqn:E; [| discriminate].
  injection H as <-. apply lookup_seq in E as [-> Hk]. lia.
Qed.

Lemma range_prefix (a b i : Z) (l1 l2 : list Z) :
  range a b = l1 ++ i :: l2 → l1 = range a i ∧ a <= i < b.
Proof.
  intros H.
  assert (range a b !! length l1 = Some i) as Hk.
  { rewrite H. apply list_lookup_middle. reflexivity. }
  apply range_lookup in Hk as [Hi Hb].
  assert (a <= i < b) as Hr by lia. split; [| exact Hr].
  rewrite (range_split a b i Hr) in H.
  apply app_inj_1 in H as [H _]; [symmetry; exact H |].
  unfold range. rewrite length_map, length_seq. lia.
Qed.

(** The entry of the journal at bar [i] is the branch the loop body takes
    from the state the loop has reached just before [i]; the journal has
    entries for the bars of [range(ma_slow, len(df))] and no others. *)
Lemma bar_journal_at (df : DataFrame) (cfg : Params) (fr : Frame)
    (j : list (Z * Action)) (i : Z) (a : Action) :
  indicators df cfg = Ok fr → bar_journal df cfg = Ok j →
  (In (i, a) j
   ↔ ma_slow cfg <= i < Z.of_nat (length df)
     ∧ ∃ st row prev,
         state_before df cfg i = Ok st
         ∧ iloc fr i = Ok row ∧ iloc fr (i - 1) = Ok prev
         ∧ a = decide_action (atr_multiplier cfg) (position st) row prev).
Proof.
  intros E Hj. unfold bar_journal, journal_before in Hj.
  rewrite E in Hj. simpl in Hj. split.
  - intros Hin. apply in_split in Hin as (j1 & j2 & ->).
    apply journal_split in Hj as (H1 & Ha & Hr).
    apply range_prefix in Hr as [Hr Hi]. split; [exact Hi |].
    apply action_inv in Ha as (row & prev & Hrow & Hprev & ->).
    exists (mkState (position_after None j1) (exits j1)), row, prev.
    repeat split; try assumption.
    rewrite state_before_journal. unfold journal_before.
    rewrite E. simpl. rewrite <- Hr, H1. reflexivity.
  - intros (Hi & st & row & prev & Hst & Hrow & Hprev & ->).
    rewrite (range_split _ _ i Hi), journal_app in Hj.
    apply bind_Ok in Hj as (j1 & H1 & Hj).
    apply bind_Ok in Hj as (j2 & H2 & Hj). injection Hj as <-.
    rewrite state_before_journal in Hst. unfold journal_before in Hst.
    rewrite E in Hst. simpl in Hst. rewrite H1 in Hst. injection Hst as <-.
    simpl in H2. unfold action in H2. rewrite Hrow, Hprev in H2.
    simpl in H2. apply bind_Ok in H2 as (j3 & _ & H2). injection H2 as <-.
    apply in_or_app. right. left. reflexivity.
Qed.

(** There is one entry per bar. *)
Lemma bar_journal_functional (df : DataFrame) (cfg : Params) (fr : Frame)
    (j : list (Z * Action)) (i : Z) (a a' : Action) :
  indicators df cfg = Ok fr → bar_journal df cfg = Ok j →
  In (i, a) j → In (i, a') j → a = a'.
Proof.
  intros E Hj H1 H2.
  apply (bar_journal_at df cfg fr j i a E Hj) in H1
    as (_ & st & row & prev & Hst & Hrow & Hprev & ->).
  apply (bar_journal_at df cfg fr j i a' E Hj) in H2
    as (_ & st' & row' & prev' & Hst' & Hrow' & Hprev' & ->).
  congruence.
Qed.

(** ** One bar of the loop *)

Lemma loop_app (m : num) (fr : Frame) (l1 l2 : list Z) (st : State) :
  loop m fr (l1 ++ l2) st = st' ← loop m fr l1 st; loop m fr l2 st'.
Proof.
  revert st. induction l1 as [|i l1 IH]; intros st; [reflexivity |].
  simpl. destruct (step m fr st i) as [st1|e]; [| reflexivity].
  simpl. apply IH.
Qed.

(** The state after bar [i] is one pass of the loop body away from the state
    before it. *)
Lemma state_before_succ (df : DataFrame) (cfg : Params) (fr : Frame) (i : Z) :
  indicators df cfg = Ok fr → ma_slow cfg <= i →
  state_before df cfg (i + 1)
  = st ← state_before df cfg i; step (atr_multiplier cfg) fr st i.
Proof.
  intros E Hi. unfold state_before. rewrite E. simpl.
  rewrite (range_split (ma_slow cfg) (i + 1) i) by lia.
  rewrite (range_nil (i + 1) (i + 1)) by lia.
  rewrite loop_app.
  destruct (loop _ fr (range (ma_slow cfg) i) initial) as [st|e];
    [| reflexivity].
  simpl. destruct (step _ fr st i); reflexivity.
Qed.

(** ** Entries *)

Lemma entry_signal_true (row prev : Row) :
  entry_signal row prev = true
  ↔ r_uptrend row = true
    ∧ fle (r_close prev) (r_ma_fast prev) = true
    ∧ flt (r_ma_fast prev) (r_close row) = true.
Proof.
  unfold entry_signal. rewrite !andb_true_iff. reflexivity.
Qed.

Lemma decide_action_Enter (m : num) (pos : option Position) (row prev : Row)
    (p : Position) :
  decide_action m pos row prev = Enter p
  ↔ pos = None ∧ entry_signal row prev = true ∧ p = open_position m row.
Proof.
  destruct pos as [q|]; simpl.
  - destruct (exit_signal q row prev) as [[r x]|]; split;
      try discriminate; intros [H _]; discriminate.
  - destruct (entry_signal row prev); split.
    + intros [= <-]. repeat split.
    + intros (_ & _ & ->). reflexivity.
    + discriminate.
    + intros (_ & H & _). discriminate.
Qed.

Lemma next_position_flat_Some (a : Action) (p : Position) :
  next_position None a = Some p ↔ a = Enter p.
Proof.
  destruct a as [|q|t]; simpl; split; try discriminate.
  - intros [= ->]. reflexivity.
  - intros [= ->]. reflexivity.
Qed.

(** One pass of the loop body from a reached state, at a bar of the frame. *)
Lemma state_before_step (df : DataFrame) (cfg : Params) (fr : Frame)
    (st : State) (i : Z) :
  indicators df cfg = Ok fr →
  0 <= i < Z.of_nat (length df) → ma_slow cfg <= i →
  state_before df cfg i = Ok st →
  ∃ row prev,
    iloc fr i = Ok row ∧ iloc fr (i - 1) = Ok prev
    ∧ state_before df cfg (i + 1)
      = Ok (apply_action st
              (decide_action (atr_multiplier cfg) (position st) row prev)).
Proof.
  intros E Hi Hs Hst.
  destruct (action_in_range (atr_multiplier cfg) fr (position st) i)
    as (row & prev & Hrow & Hprev & Ha).
  { rewrite (indicators_length _ _ _ E). exact Hi. }
  exists row, prev. split; [exact Hrow |]. split; [exact Hprev |].
  rewrite (state_before_succ df cfg fr i E Hs), Hst. simpl.
  rewrite step_action, Ha. reflexivity.
Qed.

(** C1.  For every bar sequence and every bar index [i], the loop state goes
    from flat before bar [i] to holding a position [p] after it exactly
    when [i >= ma_slow], the engine is flat when it reaches [i],
    [uptrend[i]] holds (that is, [ma_fast[i] > ma_slow[i]]), and
    [close[i-1] <= ma_fast[i-1] < close[i]]; the position then has
    [entry_date = date[i]], [entry_price = close[i]] and
    [stop_loss = close[i] - atr_multiplier * atr[i]].  In particular no
    position is opened at an index below [ma_slow]. *)
Theorem entry_rule (df : DataFrame) (cfg : Params) (fr : Frame) (i : Z)
    (p : Position) :
  indicators df cfg = Ok fr → 0 <= i < Z.of_nat (length df) →
  ((∃ st st',
      state_before df cfg i = Ok st ∧ position st = None
      ∧ state_before df cfg (i + 1) = Ok st' ∧ position st' = Some p)
   ↔ ma_slow cfg <= i
     ∧ ∃ st row prev b,
         state_before df cfg i = Ok st ∧ position st = None
         ∧ iloc fr i = Ok row ∧ iloc fr (i - 1) = Ok prev
         ∧ df !! Z.to_nat i = Some b
         ∧ r_date row = b_date b ∧ r_close row = b_close b
         ∧ r_uptrend row = true
         ∧ fgt (r_ma_fast row) (r_ma_slow row) = true
         ∧ fle (r_close prev) (r_ma_fast prev) = true
         ∧ flt (r_ma_fast prev) (r_close row) = true
         ∧ entry_date p = b_date b
         ∧ entry_price p = b_close b
         ∧ stop_loss p
           = fsub (b_close b) (fmul (atr_multiplier cfg) (r_atr row))).
Proof.
  intros E Hi. split.
  - intros (st & st' & Hst & Hflat & Hst' & Hopen).
    destruct (decide (ma_slow cfg <= i)) as [Hs|Hs].
    + split; [exact Hs |].
      destruct (state_before_step df cfg fr st i E Hi Hs Hst)
        as (row & prev & Hrow & Hprev & Hnext).
      rewrite Hnext in Hst'. injection Hst' as <-.
      rewrite position_apply_action, Hflat in Hopen.
      apply next_position_flat_Some in Hopen.
      apply decide_action_Enter in Hopen as (_ & Hsig & ->).
      apply entry_signal_true in Hsig as (Hup & Hle & Hlt).
      pose proof Hrow as Hk. apply iloc_nonneg in Hk; [| lia].
      destruct (indicators_row df cfg fr _ row E Hk)
        as (Hu & b & Hb & Hd & _ & _ & Hc).
      exists st, row, prev, b. simpl. rewrite <- Hu, <- Hd, <- Hc.
      repeat split; assumption.
    + exfalso. unfold state_before in Hst'. rewrite E in Hst'.
      simpl in Hst'. rewrite range_nil in Hst' by lia.
      injection Hst' as <-. discriminate Hopen.
  - intros (Hs & st & row & prev & b & Hst & Hflat & Hrow & Hprev & Hb & Hd
            & Hc & Hup & _ & Hle & Hlt & Hpd & Hpp & Hps).
    destruct (state_before_step df cfg fr st i E Hi Hs Hst)
      as (row' & prev' & Hrow' & Hprev' & Hnext).
    rewrite Hrow in Hrow'. injection Hrow' as <-.
    rewrite Hprev in Hprev'. injection Hprev' as <-.
    eexists st, _. split; [exact Hst |]. split; [exact Hflat |].
    split; [exact Hnext |].
    rewrite position_apply_action, Hflat.
    apply next_position_flat_Some, decide_action_Enter.
    split; [reflexivity |]. split.
    + apply entry_signal_true. repeat split; assumption.
    + destruct p as [d e s]. simpl in *. unfold open_position.
      rewrite Hd, Hc. congruence.
Qed.

(** The entry of [rally] at its third bar. *)
Lemma entry_rule_witness :
  ∃ fr,
    indicators rally tight = Ok fr
    ∧ 0 <= 2 < Z.of_nat (length rally)
    ∧ (∃ st st',
         state_before rally tight 2 = Ok st ∧ position st = None
         ∧ state_before rally tight (2 + 1) = Ok st'
         ∧ position st' = Some rally_entry)
    ∧ ma_slow tight <= 2
    ∧ ∃ st row prev b,
        state_before rally tight 2 = Ok st ∧ position st = None
        ∧ iloc fr 2 = Ok row ∧ iloc fr (2 - 1) = Ok prev
        ∧ rally !! Z.to_nat 2 = Some b
        ∧ r_date row = b_date b ∧ r_close row = b_close b
        ∧ r_uptrend row = true
        ∧ fgt (r_ma_fast row) (r_ma_slow row) = true
        ∧ fle (r_close prev) (r_ma_fast prev) = true
        ∧ flt (r_ma_fast prev) (r_close row) = true
        ∧ entry_date rally_entry = b_date b
        ∧ entry_price rally_entry = b_close b
        ∧ stop_loss rally_entry
          = fsub (b_close b) (fmul (atr_multiplier tight) (r_atr row)).
Proof.
  assert (0 <= 2 < Z.of_nat (length rally)) as Hi
    by (vm_compute; split; [discriminate | reflexivity]).
  assert (∃ st st',
            state_before rally tight 2 = Ok st ∧ position st = None
            ∧ state_before rally tight (2 + 1) = Ok st'
            ∧ position st' = Some rally_entry) as Hopen.
  { eexists. eexists. split; [vm_compute; reflexivity |].
    split; [reflexivity |]. split; [vm_compute; reflexivity |]. reflexivity. }
  eexists. split; [vm_compute; reflexivity |].
  split; [exact Hi |]. split; [exact Hopen |].
  exact (proj1 (entry_rule rally tight _ 2 rally_entry eq_refl Hi) Hopen).
Defined.

(** ** Exits *)

(** C2.  At every bar [i] the loop reaches while a position [p] is open, the
    exits are tried in this order.  If [low[i] <= stop_loss] the position is
    closed with [exit_price] equal to the stored stop level and reason
    [StopLoss], whatever the trend does on that bar, so also when the trend
    reverses on the same bar.  Otherwise, if [uptrend[i-1]] holds and
    [uptrend[i]] does not, it is closed at [exit_price = close[i]] with reason
    [TrendReversal].  Otherwise the state is unchanged and the position stays
    open. *)
Theorem exit_priority (df : DataFrame) (cfg : Params) (fr : Frame)
    (st : State) (p : Position) (row prev : Row) (i : Z) :
  indicators df cfg = Ok fr →
  ma_slow cfg <= i < Z.of_nat (length df) →
  state_before df cfg i = Ok st → position st = Some p →
  iloc fr i = Ok row → iloc fr (i - 1) = Ok prev →
  ∃ st',
    state_before df cfg (i + 1) = Ok st'
    ∧ (fle (r_low row) (stop_loss p) = true →
       position st' = None
       ∧ ∃ t, trades st' = trades st ++ [t]
              ∧ t_exit_price t = stop_loss p ∧ t_reason t = StopLoss
              ∧ t_exit_date t = r_date row
              ∧ t_entry_date t = entry_date p
              ∧ t_entry_price t = entry_price p)
    ∧ (fle (r_low row) (stop_loss p) = false →
       r_uptrend prev = true → r_uptrend row = false →
       position st' = None
       ∧ ∃ t, trades st' = trades st ++ [t]
              ∧ t_exit_price t = r_close row ∧ t_reason t = TrendReversal
              ∧ t_exit_date t = r_date row
              ∧ t_entry_date t = entry_date p
              ∧ t_entry_price t = entry_price p)
    ∧ (fle (r_low row) (stop_loss p) = false →
       r_uptrend prev = false ∨ r_uptrend row = true →
       st' = st).
Proof.
  intros E Hi Hst Hpos Hrow Hprev.
  rewrite (state_before_succ df cfg fr i E) by lia.
  rewrite Hst. simpl. rewrite step_action. unfold action.
  rewrite Hrow, Hprev, Hpos. simpl. unfold exit_signal.
  destruct (fle (r_low row) (stop_loss p)) eqn:Hsl.
  - eexists. split; [reflexivity |]. split; [| split]; try discriminate.
    intros _. split; [reflexivity |]. eexists. split; [reflexivity |].
    repeat split.
  - destruct (r_uptrend prev) eqn:Hup, (r_uptrend row) eqn:Hur; simpl;
      (eexists; split; [reflexivity |]); (split; [discriminate |]); split.
    + intros _ _ H. discriminate H.
    + intros _ _. reflexivity.
    + intros _ _ _. split; [reflexivity |]. eexists. split; [reflexivity |].
      repeat split.
    + intros _ [H|H]; discriminate H.
    + intros _ H. discriminate H.
    + intros _ _. reflexivity.
    + intros _ H. discriminate H.
    + intros _ _. reflexivity.
Qed.

(** The last bar of [washout]: the low touches the stop on a bar where the
    trend also reverses, and the trade is a stop-loss at the stop level. *)
Lemma exit_priority_witness :
  ∃ fr st row prev st',
    indicators washout tight = Ok fr
    ∧ state_before washout tight 3 = Ok st
    ∧ position st = Some rally_entry
    ∧ iloc fr 3 = Ok row ∧ iloc fr (3 - 1) = Ok prev
    ∧ fle (r_low row) (stop_loss rally_entry) = true
    ∧ r_uptrend prev = true ∧ r_uptrend row = false
    ∧ state_before washout tight (3 + 1) = Ok st'
    ∧ position st' = None
    ∧ ∃ t, trades st' = trades st ++ [t]
           ∧ t_exit_price t = stop_loss rally_entry ∧ t_reason t = StopLoss.
Proof.
  destruct (exit_priority washout tight _ _ rally_entry _ _ 3
              eq_refl ltac:(vm_compute; split; [discriminate | reflexivity])
              eq_refl eq_refl eq_refl eq_refl)
    as (st' & Hst' & Hstop & _).
  destruct (Hstop eq_refl) as (Hflat & t & Ht & Hprice & Hreason & _).
  eexists _, _, _, _, st'.
  repeat split; try exact Hst'; try exact Hflat; try reflexivity.
  exists t. repeat split; assumption.
Defined.

(** ** Short input and rejected parameters *)

(** C4.  On a bar sequence with fewer bars than [ma_slow], the empty one
    included, the engine returns the empty ledger; it raises nothing.  (The
    two other windows are taken non-negative, as every window the rolling
    constructor accepts is.) *)
Theorem short_input_empty_ledger (df : DataFrame) (cfg : Params) :
  Z.of_nat (length df) < ma_slow cfg →
  0 <= ma_fast cfg → 0 <= atr_period cfg →
  run_backtest df cfg = Ok [].
Proof.
  intros Hshort Hf Ha.
  destruct (proj2 (indicators_Ok_iff df cfg)) as [fr E]; [lia |].
  unfold run_backtest, final_state. rewrite E. simpl.
  rewrite range_nil; [reflexivity |].
  rewrite (indicators_length _ _ _ E). lia.
Qed.

Lemma short_input_empty_ledger_witness :
  Z.of_nat (length (take 1 rally)) < ma_slow tight
  ∧ run_backtest (take 1 rally) tight = Ok []
  ∧ run_backtest [] tight = Ok [].
Proof.
  split; [reflexivity |]. split.
  - apply (short_input_empty_ledger (take 1 rally) tight);
      [reflexivity | discriminate | discriminate].
  - apply (short_input_empty_ledger [] tight);
      [reflexivity | discriminate | discriminate].
Defined.

(** C7, as the code has it.  A negative [ma_fast], [ma_slow] or [atr_period]
    makes the call raise [ValueError] while the indicator columns are built,
    so before the loop over the bars starts.  Zero is not rejected: with all
    three non-negative the call returns a ledger. *)
Theorem negative_window_rejected (df : DataFrame) (cfg : Params) :
  (ma_fast cfg < 0 ∨ ma_slow cfg < 0 ∨ atr_period cfg < 0 →
   indicators df cfg = Err ValueError
   ∧ final_state df cfg = Err ValueError
   ∧ run_backtest df cfg = Err ValueError)
  ∧ (0 <= ma_fast cfg ∧ 0 <= ma_slow cfg ∧ 0 <= atr_period cfg →
     ∃ ledger, run_backtest df cfg = Ok ledger).
Proof.
  split.
  - intros H. apply (indicators_Err df) in H.
    unfold run_backtest, final_state. rewrite H. repeat split.
  - intros (Hf & Hs & Ha). apply run_backtest_total; assumption.
Qed.

(** With [atr_period = 0] the call is not rejected; it even trades, on a
    stop level that is NaN.  With [ma_fast = 0] or [ma_slow = 0] it returns
    the empty ledger. *)
Lemma zero_window_accepted :
  atr_period (mkParams 1 2 0 (of_Z 2)) <= 0
  ∧ ma_fast (mkParams 0 2 1 (of_Z 2)) <= 0
  ∧ ma_slow (mkParams 1 0 1 (of_Z 2)) <= 0
  ∧ (∃ t, run_backtest rally (mkParams 1 2 0 (of_Z 2)) = Ok [t]
          ∧ t_reason t = TrendReversal)
  ∧ run_backtest rally (mkParams 0 2 1 (of_Z 2)) = Ok []
  ∧ run_backtest rally (mkParams 1 0 1 (of_Z 2)) = Ok [].
Proof.
  split; [discriminate |]. split; [discriminate |]. split; [discriminate |].
  split; [eexists; split; vm_compute; reflexivity |].
  split; vm_compute; reflexivity.
Qed.

(** ** The first true range *)

Lemma row_max_single (x : num) : row_max [x; NaN; NaN] = x.
Proof. destruct x; reflexivity. Qed.

Lemma fsub_NaN_r (x : num) : fsub x NaN = NaN.
Proof. destruct x; reflexivity. Qed.

Lemma true_range_head (b : Bar) (rest : DataFrame) :
  true_range (b :: rest) !! 0%nat = Some (fsub (b_high b) (b_low b)).
Proof.
  unfold true_range, series_abs, series_sub, shift1. simpl.
  rewrite !fsub_NaN_r. simpl. rewrite row_max_single. reflexivity.
Qed.

(** C6, as the code has it.  The true range of the first bar is
    [high[0] - low[0]]: the missing previous close drops out of the maximum.
    On a sequence of length 1, [atr[0]] is that value when [period = 1], and
    is NaN for every [period >= 2], since the rolling mean waits for
    [period] observations. *)
Theorem first_bar_atr (b : Bar) :
  (∀ rest, true_range (b :: rest) !! 0%nat = Some (fsub (b_high b) (b_low b)))
  ∧ (∃ x, calc_atr [b] 1 = Ok [x] ∧ feq x (fsub (b_high b) (b_low b)))
  ∧ (∀ period, 2 <= period → calc_atr [b] period = Ok [NaN]).
Proof.
  split; [apply true_range_head |]. split.
  - unfold calc_atr. rewrite rolling_mean_Ok by lia.
    pose proof (true_range_head b []) as H.
    destruct (true_range [b]) as [|x [|y r]] eqn:E; try discriminate.
    injection H as ->. eexists. split; [reflexivity |].
    unfold window_at, window_mean. simpl.
    destruct (fsub (b_high b) (b_low b)) as [|q]; simpl; [exact I |].
    unfold Qsum. simpl. field.
  - intros period Hp. unfold calc_atr. rewrite rolling_mean_Ok by lia.
    pose proof (true_range_length [b]) as Hl.
    destruct (true_range [b]) as [|x [|y r]]; try discriminate.
    simpl. do 2 f_equal. unfold window_mean.
    case_decide as H; [| reflexivity].
    destruct H as [H _]. exfalso.
    assert (length (observations (window_at [x] (Z.to_nat period) 0)) ≤ 1)%nat.
    { unfold window_at. replace (1 - Z.to_nat period)%nat with 0%nat by lia.
      simpl. destruct x; simpl; lia. }
    lia.
Qed.

(** One bar with high 5 and low 2 under the default period 14: the average
    true range is missing, not 3. *)
Lemma one_bar_atr_missing :
  1 <= 14
  ∧ calc_atr [bar 1 5 2 3] 14 = Ok [NaN]
  ∧ fsub (b_high (bar 1 5 2 3)) (b_low (bar 1 5 2 3)) = Fin (5 - 2)
  ∧ ¬ feq NaN (Fin (5 - 2)).
Proof.
  split; [discriminate |]. split; [vm_compute; reflexivity |].
  split; [reflexivity |]. intros H. exact H.
Qed.

(** ** Default parameters *)

(** C8, evaluated on the code.  Called without keyword arguments, the
    event-driven engine binds [ma_fast = 5] and [ma_slow = 20], not 20 and
    60; [atr_period = 14] and [atr_multiplier = 2.0] are as stated.  The
    vectorised sibling binds 20, 60, 14 and 2.0. *)
Theorem default_parameters :
  ma_fast (bind_params no_kwargs) = 5
  ∧ ma_slow (bind_params no_kwargs) = 20
  ∧ atr_period (bind_params no_kwargs) = 14
  ∧ atr_multiplier (bind_params no_kwargs) = of_Z 2
  ∧ Vbt.ma_fast (Vbt.bind_params no_kwargs None) = 20
  ∧ Vbt.ma_slow (Vbt.bind_params no_kwargs None) = 60
  ∧ Vbt.atr_period (Vbt.bind_params no_kwargs None) = 14
  ∧ Vbt.atr_multiplier (Vbt.bind_params no_kwargs None) = of_Z 2.
Proof. repeat split. Qed.

(** ** Profit and loss *)

Lemma exits_In (j : list (Z * Action)) (t : Trade) :
  In t (exits j) ↔ ∃ i, In (i, Exit t) j.
Proof.
  induction j as [|[i a] j IH].
  - simpl. split; [tauto | intros [_ []]].
  - split.
    + intros H. destruct a as [|p|t']; simpl in H.
      * apply IH in H as [k Hk]. exists k. right. exact Hk.
      * apply IH in H as [k Hk]. exists k. right. exact Hk.
      * destruct H as [->|H]; [exists i; left; reflexivity |].
        apply IH in H as [k Hk]. exists k. right. exact Hk.
    + intros [k [Hk|Hk]].
      * injection Hk as -> ->. simpl. left. reflexivity.
      * assert (In t (exits j)) as H by (apply IH; exists k; exact Hk).
        destruct a; simpl; auto.
Qed.

Lemma decide_action_Exit (m : num) (pos : option Position) (row prev : Row)
    (t : Trade) :
  decide_action m pos row prev = Exit t
  ↔ ∃ p exit_reason exit_price,
      pos = Some p ∧ exit_signal p row prev = Some (exit_reason, exit_price)
      ∧ t = close_position p row exit_reason exit_price.
Proof.
  destruct pos as [q|]; simpl.
  - destruct (exit_signal q row prev) as [[r x]|] eqn:E; split.
    + intros [= <-]. exists q, r, x. repeat split. exact E.
    + intros (p & r' & x' & [= <-] & H & ->).
      rewrite E in H. injection H as <- <-. reflexivity.
    + discriminate.
    + intros (p & r' & x' & [= <-] & H & _). rewrite E in H. discriminate.
  - destruct (entry_signal row prev); split; try discriminate;
      intros (p & r' & x' & H & _); discriminate.
Qed.

(** Every trade of a ledger was produced by the exit branch at some bar of
    the run. *)
Lemma ledger_trade_origin (df : DataFrame) (cfg : Params)
    (ledger : list Trade) (t : Trade) :
  run_backtest df cfg = Ok ledger → In t ledger →
  ∃ i p row exit_reason exit_price,
    ma_slow cfg <= i < Z.of_nat (length df)
    ∧ t = close_position p row exit_reason exit_price.
Proof.
  rewrite run_backtest_journal. intros H Hin.
  apply bind_Ok in H as (j & Hj & H). injection H as <-.
  apply exits_In in Hin as [i Hin].
  destruct (indicators df cfg) as [fr|e] eqn:E.
  - destruct (proj1 (bar_journal_at df cfg fr j i (Exit t) E Hj) Hin)
      as (Hi & st & row & prev & _ & _ & _ & Ha).
    symmetry in Ha. apply decide_action_Exit in Ha as (p & r & x & _ & _ & ->).
    exists i, p, row, r, x. split; [exact Hi | reflexivity].
  - unfold bar_journal, journal_before in Hj. rewrite E in Hj. discriminate.
Qed.

(** C5.  Every trade of the ledger has
    [pnl_pct = (exit_price - entry_price) / entry_price * 100]; so a trade
    entered at 100 has [pnl_pct = 10] when it exits at 110 and
    [pnl_pct = -10] when it exits at 90. *)
Theorem pnl_pct_formula (df : DataFrame) (cfg : Params)
    (ledger : list Trade) (t : Trade) :
  run_backtest df cfg = Ok ledger → In t ledger →
  t_pnl_pct t
  = fmul (fdiv (fsub (t_exit_price t) (t_entry_price t)) (t_entry_price t))
         (of_Z 100)
  ∧ (feq (t_entry_price t) (of_Z 100) → feq (t_exit_price t) (of_Z 110) →
     feq (t_pnl_pct t) (of_Z 10))
  ∧ (feq (t_entry_price t) (of_Z 100) → feq (t_exit_price t) (of_Z 90) →
     feq (t_pnl_pct t) (of_Z (-10))).
Proof.
  intros H Hin.
  destruct (ledger_trade_origin df cfg ledger t H Hin)
    as (i & p & row & r & x & _ & ->).
  simpl. split; [reflexivity |].
  destruct (entry_price p) as [|e]; simpl; [split; intros [] |].
  destruct x as [|x]; simpl; [split; intros _ [] |].
  assert ((e == inject_Z 100)%Q → Qeq_bool e 0 = false) as Hnz.
  { intros He. destruct (Qeq_bool e 0) eqn:Hb; [| reflexivity].
    apply Qeq_bool_eq in Hb. rewrite He in Hb. discriminate Hb. }
  split; intros He Hx; rewrite (Hnz He); simpl; rewrite He, Hx; reflexivity.
Qed.

(** The trade of [rally]: in at 100, out at 110. *)
Lemma pnl_pct_formula_witness :
  ∃ t,
    run_backtest rally tight = Ok [t] ∧ In t [t]
    ∧ feq (t_entry_price t) (of_Z 100) ∧ feq (t_exit_price t) (of_Z 110)
    ∧ feq (t_pnl_pct t) (of_Z 10).
Proof.
  eexists. split; [vm_compute; reflexivity |].
  split; [left; reflexivity |].
  split; [reflexivity |]. split; [reflexivity |].
  refine (proj1 (proj2 (pnl_pct_formula rally tight _ _ eq_refl
                          (or_introl eq_refl))) _ _); reflexivity.
Defined.

(** The trade of [washout]: in at 100, stopped at 90. *)
Lemma washout_loses_ten :
  ∃ t,
    run_backtest washout tight = Ok [t]
    ∧ feq (t_entry_price t) (of_Z 100) ∧ feq (t_exit_price t) (of_Z 90)
    ∧ t_reason t = StopLoss ∧ feq (t_pnl_pct t) (of_Z (-10)).
Proof.
  eexists. split; [vm_compute; reflexivity |]. repeat split.
Qed.

(** The two values on binary64: rounding does not disturb them. *)
Lemma pnl_pct_binary64_round_trip :
  pnl_pct_binary64 100 110 = 10%float
  ∧ pnl_pct_binary64 100 90 = (-10)%float.
Proof. split; vm_compute; reflexivity. Qed.

(** ** The caller's frame *)

Lemma writes_only_ret {A} (x : Ref) (a : A) : writes_only x (py_ret a).
Proof. intros h r _. reflexivity. Qed.

Lemma writes_only_lift {A} (x : Ref) (v : result A) :
  writes_only x (py_lift v).
Proof. intros h r _. reflexivity. Qed.

Lemma writes_only_deref (x df : Ref) : writes_only x (py_deref df).
Proof. intros h r _. unfold py_deref. destruct (h !! df); reflexivity. Qed.

Lemma writes_only_setitem (x : Ref) (name : string) (col : Column) :
  writes_only x (py_setitem x name col).
Proof.
  intros h r Hr. unfold py_setitem. destruct (h !! x); [| reflexivity].
  simpl. apply lookup_insert_ne. congruence.
Qed.

Lemma writes_only_bind {A B} (x : Ref) (m : Py A) (f : A → Py B) :
  writes_only x m → (∀ a, writes_only x (f a)) → writes_only x (py_bind m f).
Proof.
  intros Hm Hf h r Hr. unfold py_bind.
  specialize (Hm h r Hr). destruct (m h) as [h' [a|e]]; simpl in *.
  - rewrite (Hf a h' r Hr). exact Hm.
  - exact Hm.
Qed.

Create HintDb writes.
#[local] Hint Resolve writes_only_ret writes_only_lift writes_only_deref
  writes_only_setitem : writes.

Ltac writes_only_tac :=
  repeat first
    [ apply writes_only_bind; [| intros ? ]
    | solve [ auto with writes ] ].

Lemma py_copy_fresh (df : Ref) (h : Store) (o : FrameObj) :
  h !! df = Some o →
  py_copy df h = (<[fresh (dom h) := o]> h, Ok (fresh (dom h)))
  ∧ fresh (dom h) ≠ df ∧ h !! fresh (dom h) = None.
Proof.
  intros Ho. unfold py_copy. rewrite Ho. split; [reflexivity |].
  assert (fresh (dom h) ∉ dom h) as Hfresh by apply is_fresh.
  split.
  - intros Heq. apply Hfresh. rewrite Heq. apply elem_of_dom. eexists.
    exact Ho.
  - apply not_elem_of_dom. exact Hfresh.
Qed.

(** C10.  A call of [run_backtest] leaves the caller's frame as it was: the
    object behind the caller's reference is the same after the call as
    before, and so is every other object that existed before the call.  The
    column assignments go to the copy. *)
Theorem caller_frame_unchanged (h : Store) (df : Ref) (cfg : Params) :
  (run_backtest_obj df cfg h).1 !! df = h !! df
  ∧ ∀ r, is_Some (h !! r) → (run_backtest_obj df cfg h).1 !! r = h !! r.
Proof.
  assert (∀ r, is_Some (h !! r) →
               (run_backtest_obj df cfg h).1 !! r = h !! r) as Hall.
  { intros r [o' Hr]. unfold run_backtest_obj.
    unfold py_bind at 1.
    destruct (h !! df) as [o|] eqn:Ho.
    - destruct (py_copy_fresh df h o Ho) as (-> & _ & Hnone).
      set (x := fresh (dom h)) in *.
      assert (r ≠ x) as Hrx by congruence.
      match goal with
      | |- (?body (<[x := o]> h)).1 !! r = _ =>
          assert (writes_only x body) as Hw by writes_only_tac
      end.
      rewrite (Hw _ r Hrx). apply lookup_insert_ne. congruence.
    - unfold py_copy. rewrite Ho. reflexivity. }
  split; [| exact Hall].
  destruct (h !! df) as [o|] eqn:Ho.
  - rewrite <- Ho. apply Hall. rewrite Ho. eexists. reflexivity.
  - unfold run_backtest_obj, py_bind at 1, py_copy. rewrite Ho. simpl.
    exact Ho.
Qed.

Lemma py_deref_insert (x : Ref) (o : FrameObj) (h : Store) :
  py_deref x (<[x := o]> h) = (<[x := o]> h, Ok o).
Proof. unfold py_deref. rewrite lookup_insert_eq. reflexivity. Qed.

Lemma py_setitem_insert (x : Ref) (o : FrameObj) (h : Store) (name : string)
    (col : Column) :
  py_setitem x name col (<[x := o]> h)
  = (<[x := mkFrameObj (obj_bars o) (<[name := col]> (obj_added o))]> h,
     Ok tt).
Proof.
  unfold py_setitem. rewrite lookup_insert_eq, insert_insert_eq. reflexivity.
Qed.

(** Looking a column up below the assignments of other columns. *)
Lemma added_lookup (m : gmap string Column) (f s a : Series) :
  let m1 := <["ma_fast" := FloatCol f]> m in
  let m2 := <["ma_slow" := FloatCol s]> m1 in
  let m3 := <["atr" := FloatCol a]> m2 in
  m3 !! "ma_fast" = Some (FloatCol f)
  ∧ m3 !! "ma_slow" = Some (FloatCol s)
  ∧ m3 !! "atr" = Some (FloatCol a).
Proof.
  simpl. rewrite !lookup_insert. repeat split.
Qed.

Lemma obj_frame_added (bars : DataFrame) (m : gmap string Column)
    (f s a : Series) (u : list bool) :
  obj_frame
    (mkFrameObj bars
       (<["uptrend" := BoolCol u]>
          (<["atr" := FloatCol a]>
             (<["ma_slow" := FloatCol s]> (<["ma_fast" := FloatCol f]> m)))))
  = Ok (add_columns bars f s a u).
Proof.
  unfold obj_frame, added_floats, added_bools. simpl.
  rewrite !lookup_insert. reflexivity.
Qed.

(** The ledger a call returns is the ledger of [run_backtest] on the bars of
    the caller's frame. *)
Lemma run_backtest_obj_ledger (h : Store) (df : Ref) (o : FrameObj)
    (cfg : Params) :
  h !! df = Some o →
  (run_backtest_obj df cfg h).2 = run_backtest (obj_bars o) cfg.
Proof.
  intros Ho. unfold run_backtest_obj, run_backtest, final_state, indicators.
  unfold py_bind at 1. destruct (py_copy_fresh df h o Ho) as (-> & _ & _).
  set (x := fresh (dom h)).
  unfold py_bind at 1. rewrite py_deref_insert. simpl obj_bars.
  unfold py_bind at 1, py_lift at 1.
  destruct (rolling_mean (map b_close (obj_bars o)) (ma_fast cfg)) as [f|e];
    [| reflexivity].
  unfold py_bind at 1. rewrite py_setitem_insert.
  unfold py_bind at 1. rewrite py_deref_insert. simpl obj_bars.
  unfold py_bind at 1, py_lift at 1.
  destruct (rolling_mean (map b_close (obj_bars o)) (ma_slow cfg)) as [s|e];
    [| reflexivity].
  unfold py_bind at 1. rewrite py_setitem_insert.
  unfold py_bind at 1. rewrite py_deref_insert. simpl obj_bars.
  unfold py_bind at 1, py_lift at 1.
  destruct (calc_atr (obj_bars o) (atr_period cfg)) as [a|e];
    [| reflexivity].
  unfold py_bind at 1. rewrite py_setitem_insert.
  unfold py_bind at 1. rewrite py_deref_insert.
  destruct (added_lookup (obj_added o) f s a) as (Hf & Hs & _).
  unfold py_bind at 1, py_lift at 1, added_floats at 1. simpl obj_added.
  rewrite Hf.
  unfold py_bind at 1, py_lift at 1, added_floats at 1. simpl obj_added.
  rewrite Hs.
  unfold py_bind at 1. rewrite py_setitem_insert.
  unfold py_bind at 1. rewrite py_deref_insert.
  simpl obj_added. simpl obj_bars. rewrite obj_frame_added.
  unfold py_bind, py_lift, py_ret. simpl.
  destruct (loop _ _ _ initial); reflexivity.
Qed.

(** On the sample store the caller's frame keeps its six columns and nothing
    else, the copy holds the four new ones, and the ledger is that of
    [rally]. *)
Lemma copy_receives_columns :
  (run_backtest_obj 1%positive tight caller_store).1 !! 1%positive
  = Some (mkFrameObj rally ∅)
  ∧ (∃ o, (run_backtest_obj 1%positive tight caller_store).1 !! 2%positive
          = Some o
          ∧ obj_bars o = rally
          ∧ is_Some (obj_added o !! "ma_fast")
          ∧ is_Some (obj_added o !! "ma_slow")
          ∧ is_Some (obj_added o !! "atr")
          ∧ is_Some (obj_added o !! "uptrend"))
  ∧ (run_backtest_obj 1%positive tight caller_store).2
    = run_backtest rally tight.
Proof.
  split; [| split].
  - vm_compute. reflexivity.
  - vm_compute. eexists. split; [reflexivity |].
    repeat split; eexists; reflexivity.
  - vm_compute. reflexivity.
Qed.

(** ** Positions opened and positions closed *)

Lemma journal_cons_inv (m : num) (fr : Frame) (i : Z) (ixs : list Z)
    (pos : option Position) (j : list (Z * Action)) :
  journal m fr (i :: ixs) pos = Ok j →
  ∃ row prev j',
    iloc fr i = Ok row ∧ iloc fr (i - 1) = Ok prev
    ∧ j = (i, decide_action m pos row prev) :: j'
    ∧ journal m fr ixs (next_position pos (decide_action m pos row prev))
      = Ok j'.
Proof.
  simpl. intros H. apply bind_Ok in H as (a & Ha & H).
  apply bind_Ok in H as (j' & Hj' & H). injection H as <-.
  apply action_inv in Ha as (row & prev & Hrow & Hprev & ->).
  exists row, prev, j'. repeat split; assumption.
Qed.

(** The cases of one bar: what a flat engine and what an engine holding [q]
    can do. *)
Lemma decide_action_cases (m : num) (pos : option Position) (row prev : Row) :
  (decide_action m pos row prev = Hold)
  ∨ (pos = None ∧ decide_action m pos row prev = Enter (open_position m row))
  ∨ (∃ q r x, pos = Some q
              ∧ decide_action m pos row prev = Exit (close_position q row r x)).
Proof.
  destruct pos as [q|]; simpl.
  - destruct (exit_signal q row prev) as [[r x]|].
    + right. right. exists q, r, x. split; reflexivity.
    + left. reflexivity.
  - destruct (entry_signal row prev).
    + right. left. split; reflexivity.
    + left. reflexivity.
Qed.

(** Entries and exits balance: what was open or opened is closed or still
    open. *)
Lemma journal_balance (m : num) (fr : Frame) (ixs : list Z)
    (pos : option Position) (j : list (Z * Action)) :
  journal m fr ixs pos = Ok j →
  (open_count pos + length (enters j)
   = length (exits j) + open_count (position_after pos j))%nat.
Proof.
  revert pos j. induction ixs as [|i ixs IH]; intros pos j H.
  - injection H as <-. simpl. unfold position_after. simpl. lia.
  - apply journal_cons_inv in H as (row & prev & j' & _ & _ & -> & Hj').
    apply IH in Hj'.
    change (position_after pos ((i, decide_action m pos row prev) :: j'))
      with (position_after
              (next_position pos (decide_action m pos row prev)) j').
    destruct (decide_action_cases m pos row prev)
      as [Ha|[[-> Ha]|(q & r & x & -> & Ha)]];
      rewrite Ha in *; simpl in *; lia.
Qed.

Lemma fills_exits (m : num) (fr : Frame) (ixs : list Z)
    (pos : option Position) (opened : option (Z * Position))
    (j : list (Z * Action)) :
  journal m fr ixs pos = Ok j → tracks opened pos →
  map fill_trade (fills opened j) = exits j.
Proof.
  revert pos opened j. induction ixs as [|i ixs IH]; intros pos opened j H Ht.
  - injection H as <-. reflexivity.
  - apply journal_cons_inv in H as (row & prev & j' & _ & _ & -> & Hj').
    destruct (decide_action_cases m pos row prev)
      as [Ha|[[-> Ha]|(q & r & x & -> & Ha)]]; rewrite Ha in *; simpl.
    + eapply IH; [exact Hj' | exact Ht].
    + eapply IH; [exact Hj' | reflexivity].
    + destruct opened as [[e p]|]; [| discriminate Ht].
      simpl. f_equal. eapply IH; [exact Hj' | reflexivity].
Qed.

Lemma chained_weaken (lo lo' : Z) (fs : list Fill) :
  lo <= lo' → chained lo' fs → chained lo fs.
Proof.
  destruct fs as [|f fs]; simpl; [tauto |].
  intros Hlo (H1 & H2 & H3). repeat split; [lia | lia | exact H3].
Qed.

Lemma map_seq_increasing (a : Z) (s n : nat) :
  increasing_from (a + Z.of_nat s) (map (fun k => a + Z.of_nat k) (seq s n)).
Proof.
  revert s. induction n as [|n IH]; intros s; [exact I |].
  cbn [seq map increasing_from]. split; [lia |].
  replace (a + Z.of_nat s + 1) with (a + Z.of_nat (S s)) by lia.
  apply IH.
Qed.

Lemma range_increasing (a b : Z) : increasing_from a (range a b).
Proof.
  unfold range. replace a with (a + Z.of_nat 0) at 1 by lia.
  apply map_seq_increasing.
Qed.

Lemma fills_chained (m : num) (fr : Frame) (ixs : list Z)
    (pos : option Position) (j : list (Z * Action)) (lo : Z) :
  journal m fr ixs pos = Ok j → increasing_from lo ixs →
  (pos = None → chained lo (fills None j))
  ∧ (∀ e p lo0, pos = Some p → lo0 <= e < lo →
                chained lo0 (fills (Some (e, p)) j)).
Proof.
  revert pos j lo. induction ixs as [|i ixs IH]; intros pos j lo H Hinc.
  - injection H as <-. simpl. split; intros; exact I.
  - apply journal_cons_inv in H as (row & prev & j' & _ & _ & -> & Hj').
    destruct Hinc as [Hlo Hinc].
    destruct (IH _ _ _ Hj' Hinc) as [IHflat IHopen].
    destruct (decide_action_cases m pos row prev)
      as [Ha|[[-> Ha]|(q & r & x & -> & Ha)]]; rewrite Ha in *; simpl in *.
    + split.
      * intros ->. apply (chained_weaken lo (i + 1)); [lia |].
        apply IHflat. reflexivity.
      * intros e p lo0 -> He. apply IHopen; [reflexivity | lia].
    + split; [| intros e p lo0 Hp; discriminate Hp].
      intros _. apply IHopen; [reflexivity | lia].
    + split; [intros Hp; discriminate Hp |].
      intros e p lo0 [= <-] He. simpl.
      repeat split; [lia | lia |]. apply IHflat. reflexivity.
Qed.

Lemma fills_sound (m : num) (fr : Frame) (ixs : list Z)
    (pos : option Position) (opened : option (Z * Position))
    (j : list (Z * Action)) (f : Fill) :
  journal m fr ixs pos = Ok j → tracks opened pos → In f (fills opened j) →
  (opened = Some (fill_entry_bar f, fill_opened f)
   ∨ In (fill_entry_bar f, Enter (fill_opened f)) j)
  ∧ In (fill_exit_bar f, Exit (fill_trade f)) j
  ∧ t_entry_date (fill_trade f) = entry_date (fill_opened f)
  ∧ t_entry_price (fill_trade f) = entry_price (fill_opened f).
Proof.
  revert pos opened j.
  induction ixs as [|i ixs IH]; intros pos opened j H Ht Hin.
  - injection H as <-. destruct Hin.
  - apply journal_cons_inv in H as (row & prev & j' & _ & _ & -> & Hj').
    destruct (decide_action_cases m pos row prev)
      as [Ha|[[-> Ha]|(q & r & x & -> & Ha)]]; rewrite Ha in *; simpl in *.
    + destruct (IH _ _ _ Hj' Ht Hin) as ([Ho|He] & Hx & Hd).
      * split; [left; exact Ho |]. split; [right; exact Hx | exact Hd].
      * split; [right; right; exact He |].
        split; [right; exact Hx | exact Hd].
    + destruct (IH _ (Some (i, open_position m row)) _ Hj' eq_refl Hin)
        as ([Ho|He] & Hx & Hd).
      * injection Ho as Hi Hp.
        split; [right; left; rewrite Hi, Hp; reflexivity |].
        split; [right; exact Hx | exact Hd].
      * split; [right; right; exact He |].
        split; [right; exact Hx | exact Hd].
    + destruct opened as [[e p]|]; [| discriminate Ht].
      injection Ht as ->. destruct Hin as [<-|Hin].
      * simpl. split; [left; reflexivity |].
        split; [left; reflexivity | split; reflexivity].
      * destruct (IH _ None _ Hj' eq_refl Hin) as ([Ho|He] & Hx & Hd);
          [discriminate Ho |].
        split; [right; right; exact He |].
        split; [right; exact Hx | exact Hd].
Qed.

Lemma chained_bounds (lo : Z) (fs : list Fill) (f : Fill) :
  chained lo fs → In f fs → lo <= fill_entry_bar f < fill_exit_bar f.
Proof.
  revert lo. induction fs as [|g fs IH]; intros lo Hc Hin; [destruct Hin |].
  destruct Hc as (H1 & H2 & H3). destruct Hin as [<-|Hin]; [lia |].
  specialize (IH _ H3 Hin). lia.
Qed.

Lemma chained_next (lo : Z) (fs : list Fill) (k : nat) (f g : Fill) :
  chained lo fs → fs !! k = Some f → fs !! S k = Some g →
  fill_exit_bar f < fill_entry_bar g.
Proof.
  revert lo k. induction fs as [|h fs IH]; intros lo k Hc Hf Hg;
    [discriminate Hf |].
  destruct Hc as (H1 & H2 & H3). destruct k as [|k].
  - injection Hf as ->. simpl in Hg. destruct fs as [|g' fs];
      [discriminate Hg |]. injection Hg as ->.
    destruct H3 as (H3 & _). lia.
  - simpl in Hf, Hg. exact (IH _ _ H3 Hf Hg).
Qed.

(** The dates an entry and an exit record are the dates of their bars. *)
Lemma journal_enter_date (df : DataFrame) (cfg : Params) (fr : Frame)
    (j : list (Z * Action)) (e : Z) (p : Position) :
  indicators df cfg = Ok fr → bar_journal df cfg = Ok j →
  In (e, Enter p) j →
  0 <= ma_slow cfg <= e ∧ e < Z.of_nat (length df)
  ∧ date_at df e = Some (entry_date p).
Proof.
  intros E Hj Hin.
  assert (0 <= ma_slow cfg) as Hs.
  { assert (∃ fr', indicators df cfg = Ok fr') as H by (eexists; exact E).
    apply indicators_Ok_iff in H. lia. }
  destruct (proj1 (bar_journal_at df cfg fr j e (Enter p) E Hj) Hin)
    as (Hi & st & row & prev & _ & Hrow & _ & Ha).
  symmetry in Ha. apply decide_action_Enter in Ha as (_ & _ & ->).
  apply iloc_nonneg in Hrow; [| lia].
  destruct (indicators_row df cfg fr _ row E Hrow)
    as (_ & b & Hb & Hd & _).
  split; [lia |]. split; [lia |].
  unfold date_at. case_decide; [| lia]. rewrite Hb. simpl. congruence.
Qed.

Lemma journal_exit_date (df : DataFrame) (cfg : Params) (fr : Frame)
    (j : list (Z * Action)) (x : Z) (t : Trade) :
  indicators df cfg = Ok fr → bar_journal df cfg = Ok j →
  In (x, Exit t) j →
  0 <= ma_slow cfg <= x ∧ x < Z.of_nat (length df)
  ∧ date_at df x = Some (t_exit_date t).
Proof.
  intros E Hj Hin.
  assert (0 <= ma_slow cfg) as Hs.
  { assert (∃ fr', indicators df cfg = Ok fr') as H by (eexists; exact E).
    apply indicators_Ok_iff in H. lia. }
  destruct (proj1 (bar_journal_at df cfg fr j x (Exit t) E Hj) Hin)
    as (Hi & st & row & prev & _ & Hrow & _ & Ha).
  symmetry in Ha. apply decide_action_Exit in Ha as (q & r & px & _ & _ & ->).
  apply iloc_nonneg in Hrow; [| lia].
  destruct (indicators_row df cfg fr _ row E Hrow)
    as (_ & b & Hb & Hd & _).
  split; [lia |]. split; [lia |].
  unfold date_at. case_decide; [| lia]. rewrite Hb. simpl. congruence.
Qed.

Lemma bar_journal_indicators (df : DataFrame) (cfg : Params)
    (j : list (Z * Action)) :
  bar_journal df cfg = Ok j →
  ∃ fr, indicators df cfg = Ok fr
        ∧ journal (atr_multiplier cfg) fr
            (range (ma_slow cfg) (Z.of_nat (length df))) None = Ok j.
Proof.
  unfold bar_journal, journal_before. intros H.
  apply bind_Ok in H as (fr & E & H). exists fr. split; assumption.
Qed.

(** An entry of the journal is a step of the loop: the state before bar [i]
    and the state after it differ by the action recorded at [i]. *)
Lemma bar_journal_states (df : DataFrame) (cfg : Params)
    (j : list (Z * Action)) (i : Z) (a : Action) :
  bar_journal df cfg = Ok j → In (i, a) j →
  ∃ st row prev fr,
    indicators df cfg = Ok fr
    ∧ iloc fr i = Ok row ∧ iloc fr (i - 1) = Ok prev
    ∧ a = decide_action (atr_multiplier cfg) (position st) row prev
    ∧ state_before df cfg i = Ok st
    ∧ state_before df cfg (i + 1) = Ok (apply_action st a).
Proof.
  intros Hj Hin.
  destruct (bar_journal_indicators df cfg j Hj) as (fr & E & _).
  assert (0 <= ma_slow cfg) as Hs.
  { assert (∃ fr', indicators df cfg = Ok fr') as H by (eexists; exact E).
    apply indicators_Ok_iff in H. lia. }
  destruct (proj1 (bar_journal_at df cfg fr j i a E Hj) Hin)
    as (Hi & st & row & prev & Hst & Hrow & Hprev & Ha).
  destruct (state_before_step df cfg fr st i E ltac:(lia) ltac:(lia) Hst)
    as (row' & prev' & Hrow' & Hprev' & Hnext).
  rewrite Hrow in Hrow'. injection Hrow' as <-.
  rewrite Hprev in Hprev'. injection Hprev' as <-.
  exists st, row, prev, fr. rewrite Ha.
  repeat split; assumption.
Qed.

(** C9.  The trades of the ledger are the exits of the run, each paired
    with the entry that opened its position.  Every trade is entered at a
    bar of the loop where the state goes from flat to holding its position,
    exits at a strictly later bar where the state goes back to flat and the
    trade is appended, and carries the dates of these two bars; and every
    trade is entered at a bar strictly later than the exit bar of the trade
    before it.  So the trades do not overlap, no exit is taken on an entry
    bar and no entry on an exit bar. *)
Theorem trades_ordered_in_time (df : DataFrame) (cfg : Params)
    (j : list (Z * Action)) :
  bar_journal df cfg = Ok j →
  run_backtest df cfg = Ok (map fill_trade (fills None j))
  ∧ (∀ f, In f (fills None j) →
       ma_slow cfg <= fill_entry_bar f
       ∧ fill_entry_bar f < fill_exit_bar f
       ∧ fill_exit_bar f < Z.of_nat (length df)
       ∧ date_at df (fill_entry_bar f) = Some (t_entry_date (fill_trade f))
       ∧ date_at df (fill_exit_bar f) = Some (t_exit_date (fill_trade f))
       ∧ (∃ st,
            state_before df cfg (fill_entry_bar f) = Ok st
            ∧ position st = None
            ∧ state_before df cfg (fill_entry_bar f + 1)
              = Ok (mkState (Some (fill_opened f)) (trades st)))
       ∧ (∃ st,
            state_before df cfg (fill_exit_bar f) = Ok st
            ∧ is_Some (position st)
            ∧ state_before df cfg (fill_exit_bar f + 1)
              = Ok (mkState None (trades st ++ [fill_trade f]))))
  ∧ (∀ k f g,
       fills None j !! k = Some f → fills None j !! S k = Some g →
       fill_exit_bar f < fill_entry_bar g).
Proof.
  intros Hj. destruct (bar_journal_indicators df cfg j Hj) as (fr & E & Hjr).
  pose proof (proj1 (fills_chained _ _ _ _ _ (ma_slow cfg) Hjr
                       (range_increasing _ _)) eq_refl) as Hch.
  split; [| split].
  - rewrite run_backtest_journal, Hj. simpl. f_equal. symmetry.
    apply (fills_exits _ _ _ _ None _ Hjr). reflexivity.
  - intros f Hf.
    destruct (fills_sound _ _ _ _ None _ f Hjr eq_refl Hf)
      as ([Ho|He] & Hx & Hd & _); [discriminate Ho |].
    destruct (journal_enter_date df cfg fr j _ _ E Hj He) as (_ & _ & Hde).
    destruct (journal_exit_date df cfg fr j _ _ E Hj Hx) as (_ & Hlen & Hdx).
    destruct (chained_bounds _ _ f Hch Hf) as [Hlo Hlt].
    split; [exact Hlo |]. split; [exact Hlt |]. split; [exact Hlen |].
    split; [rewrite Hd; exact Hde |]. split; [exact Hdx |]. split.
    + destruct (bar_journal_states df cfg j _ _ Hj He)
        as (st & row & prev & fr' & _ & _ & _ & Ha & Hst & Hnext).
      symmetry in Ha. apply decide_action_Enter in Ha as (Hflat & _).
      exists st. split; [exact Hst |]. split; [exact Hflat | exact Hnext].
    + destruct (bar_journal_states df cfg j _ _ Hj Hx)
        as (st & row & prev & fr' & _ & _ & _ & Ha & Hst & Hnext).
      symmetry in Ha.
      apply decide_action_Exit in Ha as (q & r & x & Hq & _).
      exists st. split; [exact Hst |].
      split; [rewrite Hq; eexists; reflexivity | exact Hnext].
  - intros k f g Hf Hg. exact (chained_next _ _ k f g Hch Hf Hg).
Qed.

(** The two trades of [two_rallies]: bars 2 to 4, then bars 5 to 6. *)
Lemma trades_ordered_in_time_witness :
  ∃ j f g,
    bar_journal two_rallies tight = Ok j
    ∧ fills None j = [f; g]
    ∧ run_backtest two_rallies tight = Ok [fill_trade f; fill_trade g]
    ∧ (fill_entry_bar f, fill_exit_bar f) = (2, 4)
    ∧ (fill_entry_bar g, fill_exit_bar g) = (5, 6)
    ∧ fill_exit_bar f < fill_entry_bar g.
Proof.
  eexists. eexists. eexists.
  split; [vm_compute; reflexivity |].
  split; [vm_compute; reflexivity |].
  split; [vm_compute; reflexivity |].
  split; [reflexivity |]. split; [reflexivity |].
  refine (proj2 (proj2 (trades_ordered_in_time two_rallies tight _ eq_refl))
            0%nat _ _ eq_refl eq_refl).
Defined.

(** ** A position still open at the end *)

Lemma position_after_Some (pos : option Position) (j : list (Z * Action))
    (p : Position) :
  position_after pos j = Some p →
  (pos = Some p ∧ Forall (fun ia => ia.2 = Hold) j)
  ∨ ∃ j1 e j2,
      j = j1 ++ (e, Enter p) :: j2 ∧ Forall (fun ia => ia.2 = Hold) j2.
Proof.
  revert pos. induction j as [|[i a] j IH]; intros pos H.
  - left. split; [exact H | constructor].
  - change (position_after pos ((i, a) :: j))
      with (position_after (next_position pos a) j) in H.
    destruct (IH _ H) as [[Hp Hall]|(j1 & e & j2 & -> & Hall)].
    + destruct a as [|q|t]; simpl in Hp.
      * left. split; [exact Hp |]. constructor; [reflexivity | exact Hall].
      * injection Hp as ->. right. exists [], i, j. split; [reflexivity |].
        exact Hall.
      * discriminate Hp.
    + right. exists ((i, a) :: j1), e, j2. split; [reflexivity | exact Hall].
Qed.

Lemma holds_keep (pos : option Position) (j : list (Z * Action)) :
  Forall (fun ia => ia.2 = Hold) j →
  position_after pos j = pos ∧ exits j = [].
Proof.
  induction 1 as [|[i a] j Ha _ IH]; [split; reflexivity |].
  simpl in Ha. subst a. exact IH.
Qed.

Lemma range_app (a b i : Z) :
  a <= i <= b → range a b = range a i ++ range i b.
Proof.
  intros Hi. destruct (decide (i = b)) as [->|Hne].
  - rewrite (range_nil b b) by lia. rewrite app_nil_r. reflexivity.
  - rewrite (range_split a b i) by lia.
    rewrite (range_split i b i) by lia.
    rewrite (range_nil i i) by lia. reflexivity.
Qed.

(** The journal of the bars below [i] is a prefix of the journal of the
    run. *)
Lemma journal_before_prefix (df : DataFrame) (cfg : Params)
    (j : list (Z * Action)) (i : Z) :
  bar_journal df cfg = Ok j → ma_slow cfg <= i <= Z.of_nat (length df) →
  journal_before df cfg i = Ok (take (Z.to_nat (i - ma_slow cfg)) j).
Proof.
  intros Hj Hi. destruct (bar_journal_indicators df cfg j Hj) as (fr & E & Hjr).
  rewrite (range_app _ _ i Hi), journal_app in Hjr.
  apply bind_Ok in Hjr as (j1 & H1 & Hjr).
  apply bind_Ok in Hjr as (j2 & _ & Hjr). injection Hjr as <-.
  unfold journal_before. rewrite E. simpl. rewrite H1. f_equal.
  apply journal_indices in H1. apply (f_equal length) in H1.
  rewrite length_map in H1. unfold range in H1 at 1.
  rewrite length_map, length_seq in H1.
  rewrite take_app_length'; [reflexivity | lia].
Qed.

(** C3.  When the loop ends with a position [p] still open, [p] was opened
    at some bar [e]: the state is flat before [e], holds [p] after it, and
    from then to the end of the loop it keeps holding [p] with the same
    trades, so no exit is taken at [e] or later and nothing is appended for
    [p].  The ledger returned is the trade list of that final state: the
    trades closed during the loop, each paired with the entry that opened it
    and closed before [e]; the number of positions opened exceeds the number
    of trades by one. *)
Theorem open_position_not_recorded (df : DataFrame) (cfg : Params)
    (st : State) (p : Position) :
  final_state df cfg = Ok st → position st = Some p →
  ∃ j e,
    bar_journal df cfg = Ok j
    ∧ ma_slow cfg <= e < Z.of_nat (length df)
    ∧ (∃ st0, state_before df cfg e = Ok st0 ∧ position st0 = None
              ∧ trades st0 = trades st)
    ∧ (∀ i, e < i <= Z.of_nat (length df) →
         state_before df cfg i = Ok st)
    ∧ (∀ x t, In (x, Exit t) j → x < e)
    ∧ run_backtest df cfg = Ok (trades st)
    ∧ trades st = exits j
    ∧ trades st = map fill_trade (fills None j)
    ∧ (∀ f, In f (fills None j) →
         fill_entry_bar f < fill_exit_bar f ∧ fill_exit_bar f < e)
    ∧ length (enters j) = S (length (trades st)).
Proof.
  intros Hst Hpos. pose proof Hst as Hrun.
  rewrite final_state_before, state_before_journal in Hst.
  apply bind_Ok in Hst as (j & Hj & Hst). injection Hst as <-.
  simpl in Hpos.
  change (journal_before df cfg _) with (bar_journal df cfg) in Hj.
  destruct (bar_journal_indicators df cfg j Hj) as (fr & E & Hjr).
  destruct (position_after_Some None j p Hpos)
    as [[Hn _]|(j1 & e & j2 & Hsplit & Hall)]; [discriminate Hn |].
  pose proof Hjr as Hparts. rewrite Hsplit in Hparts.
  apply journal_split in Hparts as (_ & _ & Hr).
  apply range_prefix in Hr as [Hr He].
  assert (length j1 = Z.to_nat (e - ma_slow cfg)) as Hlen1.
  { apply (f_equal length) in Hr. unfold range in Hr.
    rewrite !length_map, length_seq in Hr. exact Hr. }
  assert (∀ x t, In (x, Exit t) j → x < e) as Hexits.
  { intros x t Hin. rewrite Hsplit in Hin.
    apply in_app_or in Hin as [Hin|[Hin|Hin]].
    - assert (In x (map fst j1)) as Hx.
      { apply in_map_iff. exists (x, Exit t).
        split; [reflexivity | exact Hin]. }
      rewrite Hr in Hx. apply range_elem in Hx. lia.
    - discriminate Hin.
    - rewrite Forall_forall in Hall.
      apply list_elem_of_In, Hall in Hin. discriminate Hin. }
  assert (exits j = exits j1) as Hex.
  { rewrite Hsplit, exits_app. simpl.
    rewrite (proj2 (holds_keep (Some p) j2 Hall)), app_nil_r. reflexivity. }
  pose proof (proj1 (fills_chained _ _ _ _ _ (ma_slow cfg) Hjr
                       (range_increasing _ _)) eq_refl) as Hch.
  exists j, e. simpl.
  split; [exact Hj |]. split; [exact He |]. split; [| split; [| split]].
  - assert (position_after None j1 = None) as Hflat.
    { pose proof Hjr as Ha. rewrite Hsplit in Ha.
      apply journal_split in Ha as (_ & Ha & _).
      apply action_inv in Ha as (row & prev & _ & _ & Ha).
      symmetry in Ha. apply decide_action_Enter in Ha as (Hflat & _).
      exact Hflat. }
    exists (mkState (position_after None j1) (exits j1)).
    split; [| split; [exact Hflat | symmetry; exact Hex]].
    rewrite state_before_journal.
    rewrite (journal_before_prefix df cfg j e Hj) by lia.
    rewrite Hsplit, <- Hlen1, take_app_length. reflexivity.
  - intros i Hi. rewrite state_before_journal.
    rewrite (journal_before_prefix df cfg j i Hj) by lia. simpl.
    replace (Z.to_nat (i - ma_slow cfg))
      with (length j1 + S (Z.to_nat (i - e - 1)))%nat by lia.
    rewrite Hsplit, take_app_add. simpl.
    assert (Forall (fun ia => ia.2 = Hold) (take (Z.to_nat (i - e - 1)) j2))
      as Hall'.
    { apply Forall_take. exact Hall. }
    destruct (holds_keep (Some p) _ Hall') as [Hp' Hx'].
    f_equal. rewrite position_after_app, exits_app.
    change (position_after (position_after None j1)
              ((e, Enter p) :: take (Z.to_nat (i - e - 1)) j2))
      with (position_after (Some p) (take (Z.to_nat (i - e - 1)) j2)).
    simpl exits at 2. rewrite Hp', Hx', app_nil_r.
    rewrite <- Hsplit, Hpos, Hex. reflexivity.
  - exact Hexits.
  - split; [| split; [| split; [| split]]].
    + unfold run_backtest. rewrite Hrun. reflexivity.
    + reflexivity.
    + symmetry. apply (fills_exits _ _ _ _ None _ Hjr). reflexivity.
    + intros f Hf. split.
      * apply (chained_bounds _ _ f Hch Hf).
      * destruct (fills_sound _ _ _ _ None _ f Hjr eq_refl Hf)
          as (_ & Hx & _).
        exact (Hexits _ _ Hx).
    + pose proof (journal_balance _ _ _ _ _ Hjr) as Hb.
      rewrite Hpos in Hb. simpl in Hb. lia.
Qed.

(** [unfinished] ends one bar after its entry: the position is open and the
    ledger is empty. *)
Lemma open_position_not_recorded_witness :
  ∃ st,
    final_state unfinished tight = Ok st
    ∧ position st = Some rally_entry
    ∧ run_backtest unfinished tight = Ok []
    ∧ ∃ j e, bar_journal unfinished tight = Ok j
             ∧ ma_slow tight <= e < Z.of_nat (length unfinished)
             ∧ length (enters j) = 1%nat.
Proof.
  eexists. split; [vm_compute; reflexivity |].
  split; [reflexivity |]. split; [vm_compute; reflexivity |].
  destruct (open_position_not_recorded unfinished tight _ rally_entry
              eq_refl eq_refl)
    as (j & e & Hj & He & _ & _ & _ & _ & _ & _ & _ & Hn).
  exists j, e. repeat split; try assumption; apply He.
Defined.

(** * Further properties of the engine *)

(** ** Values of the rolling mean *)

Lemma observations_length (l : list num) :
  (length (observations l) ≤ length l)%nat.
Proof. induction l as [|[|q] l IH]; simpl; lia. Qed.

Lemma observations_finite (l : list num) :
  Forall (fun x => is_nan x = false) l →
  length (observations l) = length l.
Proof.
  induction 1 as [|[|q] l Hx _ IH]; simpl; [reflexivity | discriminate Hx |].
  rewrite IH. reflexivity.
Qed.

Lemma window_at_length (s : Series) (w i : nat) :
  (i < length s)%nat → length (window_at s w i) = Nat.min w (S i).
Proof.
  intros Hi. unfold window_at. rewrite length_drop, length_take. lia.
Qed.


(** Before the window is full the mean is missing. *)
Lemma window_mean_warmup (s : Series) (w i : nat) :
  (i < length s)%nat → (S i < w ∨ w = 0)%nat →
  window_mean w (window_at s w i) = NaN.
Proof.
  intros Hi Hw. unfold window_mean. case_decide as H; [| reflexivity].
  exfalso. pose proof (observations_length (window_at s w i)) as Hle.
  rewrite (window_at_length s w i Hi) in Hle. lia.
Qed.


Lemma rolling_mean_lookup (s r : Series) (w : Z) (k : nat) (x : num) :
  rolling_mean s w = Ok r → r !! k = Some x →
  0 <= w ∧ (k < length s)%nat
  ∧ x = window_mean (Z.to_nat w) (window_at s (Z.to_nat w) k).
Proof.
  unfold rolling_mean. case_decide as Hw; [discriminate |].
  intros [= <-] Hk. unfold Series in *. rewrite list_lookup_fmap in Hk.
  destruct (seq 0 (length s) !! k) as [k'|] eqn:E; [| discriminate Hk].
  apply lookup_seq in E as [-> Hlt]. injection Hk as <-.
  split; [lia |]. split; [exact Hlt | reflexivity].
Qed.

(** The three indicator values of a row of the engine's frame. *)
Lemma indicators_row_values (df : DataFrame) (cfg : Params) (fr : Frame)
    (k : nat) (row : Row) :
  indicators df cfg = Ok fr → fr !! k = Some row →
  (k < length df)%nat
  ∧ r_ma_fast row
    = window_mean (Z.to_nat (ma_fast cfg))
        (window_at (map b_close df) (Z.to_nat (ma_fast cfg)) k)
  ∧ r_ma_slow row
    = window_mean (Z.to_nat (ma_slow cfg))
        (window_at (map b_close df) (Z.to_nat (ma_slow cfg)) k)
  ∧ r_atr row
    = window_mean (Z.to_nat (atr_period cfg))
        (window_at (true_range df) (Z.to_nat (atr_period cfg)) k).
Proof.
  unfold indicators, calc_atr. intros H Hk.
  apply bind_Ok in H as [f [Hf H]]. apply bind_Ok in H as [s [Hs H]].
  apply bind_Ok in H as [a [Ha H]]. injection H as <-.
  apply add_columns_lookup in Hk
    as (b & x & y & z & v & Hb & Hx & Hy & Hz & _ & ->).
  simpl.
  destruct (rolling_mean_lookup _ _ _ _ _ Hf Hx) as (_ & _ & ->).
  destruct (rolling_mean_lookup _ _ _ _ _ Hs Hy) as (_ & _ & ->).
  destruct (rolling_mean_lookup _ _ _ _ _ Ha Hz) as (_ & _ & ->).
  split; [eapply lookup_lt_Some; exact Hb | repeat split].
Qed.

Lemma fle_finite (x y : num) :
  fle x y = true → is_nan x = false ∧ is_nan y = false.
Proof. destruct x, y; simpl; try discriminate. split; reflexivity. Qed.

Lemma flt_finite (x y : num) :
  flt x y = true → is_nan x = false ∧ is_nan y = false.
Proof. destruct x, y; simpl; try discriminate. split; reflexivity. Qed.

Lemma iloc_elem (fr : Frame) (i : Z) (row : Row) :
  iloc fr i = Ok row → ∃ k, fr !! k = Some row.
Proof.
  unfold iloc. case_decide; [| discriminate].
  destruct (fr !! Z.to_nat _) as [r|] eqn:E; [| discriminate].
  intros [= <-]. eexists. exact E.
Qed.

Lemma window_mean_present (s : Series) (w i : nat) :
  (i < length s)%nat →
  is_nan (window_mean w (window_at s w i)) = false → (1 ≤ w ≤ S i)%nat.
Proof.
  intros Hi Hv. destruct (decide (S i < w ∨ w = 0)%nat) as [Hw|Hw]; [| lia].
  rewrite (window_mean_warmup s w i Hi Hw) in Hv. discriminate Hv.
Qed.

(** ** Warm-up of both averages *)

(** An entry needs the fast average of the previous bar and both averages
    of the current bar, so no position is opened below [ma_fast] either:
    entries start at [max(ma_fast, ma_slow)]. *)
Theorem entry_after_both_warmups (df : DataFrame) (cfg : Params)
    (st st' : State) (i : Z) (p : Position) :
  0 <= i < Z.of_nat (length df) →
  state_before df cfg i = Ok st → position st = None →
  state_before df cfg (i + 1) = Ok st' → position st' = Some p →
  ma_slow cfg <= i ∧ ma_fast cfg <= i.
Proof.
  intros Hi Hst Hflat Hst' Hopen.
  destruct (indicators df cfg) as [fr|e] eqn:E;
    [| unfold state_before in Hst; rewrite E in Hst; discriminate Hst].
  destruct (decide (ma_slow cfg <= i)) as [Hs|Hs].
  - split; [exact Hs |].
    destruct (state_before_step df cfg fr st i E Hi Hs Hst)
      as (row & prev & Hrow & Hprev & Hnext).
    rewrite Hnext in Hst'. injection Hst' as <-.
    rewrite position_apply_action, Hflat in Hopen.
    apply next_position_flat_Some in Hopen.
    apply decide_action_Enter in Hopen as (_ & Hsig & _).
    apply entry_signal_true in Hsig as (Hup & Hle & _).
    apply iloc_nonneg in Hrow; [| lia].
    destruct (indicators_row df cfg fr _ row E Hrow) as (Hu & _).
    destruct (indicators_row_values df cfg fr _ row E Hrow)
      as (Hk & _ & Hslow & _).
    rewrite Hu in Hup. apply flt_finite in Hup as [Hsl _].
    rewrite Hslow in Hsl.
    apply window_mean_present in Hsl; [| rewrite length_map; exact Hk].
    assert (1 <= i) as Hi1 by lia.
    apply iloc_nonneg in Hprev; [| lia].
    destruct (indicators_row_values df cfg fr _ prev E Hprev)
      as (Hk' & Hfast & _).
    apply fle_finite in Hle as [_ Hfa]. rewrite Hfast in Hfa.
    apply window_mean_present in Hfa; [| rewrite length_map; exact Hk'].
    lia.
  - exfalso. unfold state_before in Hst'. rewrite E in Hst'.
    simpl in Hst'. rewrite range_nil in Hst' by lia.
    injection Hst' as <-. discriminate Hopen.
Qed.

(** In [dip] under [late_fast] the entry comes at bar 3 = [ma_fast]. *)
Lemma entry_after_both_warmups_witness :
  ∃ st st',
    0 <= 3 < Z.of_nat (length dip)
    ∧ state_before dip late_fast 3 = Ok st ∧ position st = None
    ∧ state_before dip late_fast (3 + 1) = Ok st' ∧ is_Some (position st')
    ∧ ma_slow late_fast <= 3 ∧ ma_fast late_fast <= 3.
Proof.
  assert (0 <= 3 < Z.of_nat (length dip)) as Hi
    by (vm_compute; split; [discriminate | reflexivity]).
  eexists. eexists. split; [exact Hi |].
  split; [vm_compute; reflexivity |]. split; [reflexivity |].
  split; [vm_compute; reflexivity |]. split; [eexists; reflexivity |].
  exact (entry_after_both_warmups dip late_fast _ _ 3 _ Hi
           eq_refl eq_refl eq_refl eq_refl).
Defined.

(** ** Runs without an uptrend *)

Lemma journal_no_uptrend (m : num) (fr : Frame) (ixs : list Z)
    (j : list (Z * Action)) :
  (∀ k row, fr !! k = Some row → r_uptrend row = false) →
  journal m fr ixs None = Ok j →
  Forall (fun ia => ia.2 = Hold) j.
Proof.
  intros Hup. revert j. induction ixs as [|i ixs IH]; intros j H.
  - injection H as <-. constructor.
  - apply journal_cons_inv in H as (row & prev & j' & Hrow & _ & -> & Hj').
    apply iloc_elem in Hrow as [k Hk].
    assert (decide_action m None row prev = Hold) as Ha.
    { simpl. unfold entry_signal. rewrite (Hup k row Hk). reflexivity. }
    rewrite Ha in *. constructor; [reflexivity |]. apply IH. exact Hj'.
Qed.

Lemma fgt_NaN (x y : num) : is_nan x = true ∨ is_nan y = true → fgt x y = false.
Proof. destruct x, y; simpl; intros [H|H]; try discriminate; reflexivity. Qed.

(** A window of zero makes its average missing on every bar, so the
    uptrend flag is never set and the ledger is empty, whatever the bars. *)
Theorem zero_average_window_never_trades (df : DataFrame) (cfg : Params) :
  0 <= ma_fast cfg → 0 <= ma_slow cfg → 0 <= atr_period cfg →
  ma_fast cfg = 0 ∨ ma_slow cfg = 0 →
  run_backtest df cfg = Ok []
  ∧ final_state df cfg = Ok initial.
Proof.
  intros Hf Hs Ha Hzero.
  destruct (proj2 (indicators_Ok_iff df cfg)) as [fr E]; [lia |].
  assert (∀ k row, fr !! k = Some row → r_uptrend row = false) as Hup.
  { intros k row Hk.
    destruct (indicators_row df cfg fr k row E Hk) as (-> & _).
    destruct (indicators_row_values df cfg fr k row E Hk)
      as (Hlen & -> & -> & _).
    apply fgt_NaN. destruct Hzero as [Hz|Hz]; rewrite Hz.
    - left. rewrite window_mean_warmup;
        [reflexivity | rewrite length_map; exact Hlen | right; reflexivity].
    - right. rewrite window_mean_warmup;
        [reflexivity | rewrite length_map; exact Hlen | right; reflexivity]. }
  destruct (journal_before_total df cfg fr (Z.of_nat (length df)) E)
    as [j Hj]; [lia |].
  pose proof Hj as Hjr. unfold journal_before in Hjr. rewrite E in Hjr.
  simpl in Hjr. apply (journal_no_uptrend _ _ _ _ Hup) in Hjr.
  destruct (holds_keep None j Hjr) as [Hpos Hex].
  assert (final_state df cfg = Ok initial) as Hfin.
  { rewrite final_state_before, state_before_journal, Hj. simpl.
    rewrite Hpos, Hex. reflexivity. }
  split; [| exact Hfin]. unfold run_backtest. rewrite Hfin. reflexivity.
Qed.

Lemma zero_average_window_never_trades_witness :
  ma_fast (mkParams 0 2 1 (of_Z 2)) = 0
  ∧ run_backtest rally (mkParams 0 2 1 (of_Z 2)) = Ok []
  ∧ run_backtest rally (mkParams 1 0 1 (of_Z 2)) = Ok [].
Proof.
  split; [reflexivity |]. split.
  - apply (zero_average_window_never_trades rally (mkParams 0 2 1 (of_Z 2)));
      [discriminate | discriminate | discriminate | left; reflexivity].
  - apply (zero_average_window_never_trades rally (mkParams 1 0 1 (of_Z 2)));
      [discriminate | discriminate | discriminate | right; reflexivity].
Defined.

(** ** The true range and its average *)

Lemma shift1_lookup (s : list num) (k : nat) :
  (k < length s)%nat →
  (shift1 s : list num) !! k
  = Some (match k with O => NaN | S k' => default NaN (s !! k') end).
Proof.
  intros Hk. unfold shift1. rewrite lookup_take_lt by exact Hk.
  destruct k as [|k']; [reflexivity |]. simpl.
  destruct (s !! k') as [x|] eqn:E; [reflexivity |].
  apply lookup_ge_None in E. lia.
Qed.

Lemma zip3_lookup (a b c : list num) (k : nat) (x y z : num) :
  a !! k = Some x → b !! k = Some y → c !! k = Some z →
  zip3 a b c !! k = Some [x; y; z].
Proof.
  revert a b c. induction k as [|k IH]; intros [|x' a] [|y' b] [|z' c];
    simpl; try discriminate.
  - intros [= ->] [= ->] [= ->]. reflexivity.
  - apply IH.
Qed.

(** The true range of bar [k], cell by cell. *)
Lemma true_range_lookup (df : list Bar) (k : nat) (b : Bar) :
  df !! k = Some b →
  (true_range df : list num) !! k
  = Some (row_max [fsub (b_high b) (b_low b);
                   fabs (fsub (b_high b) (prev_close df k));
                   fabs (fsub (b_low b) (prev_close df k))]).
Proof.
  intros Hb. unfold true_range, series_abs, series_sub.
  assert (k < length df)%nat as Hk by (eapply lookup_lt_Some; exact Hb).
  assert ((shift1 (b_close <$> df) : list num) !! k
          = Some (prev_close df k)) as Hpc.
  { rewrite shift1_lookup by (rewrite length_fmap; exact Hk).
    destruct k as [|k']; [reflexivity |]. simpl.
    rewrite list_lookup_fmap. reflexivity. }
  change (map b_close df) with (b_close <$> df).
  change (map b_high df) with (b_high <$> df).
  change (map b_low df) with (b_low <$> df).
  change (map row_max ?l) with (row_max <$> l).
  rewrite list_lookup_fmap.
  erewrite zip3_lookup; [reflexivity | | |].
  - rewrite lookup_zip_with, !list_lookup_fmap, Hb. reflexivity.
  - change (map fabs ?l) with (fabs <$> l).
    rewrite list_lookup_fmap, lookup_zip_with, list_lookup_fmap, Hb.
    simpl. rewrite Hpc. reflexivity.
  - change (map fabs ?l) with (fabs <$> l).
    rewrite list_lookup_fmap, lookup_zip_with, list_lookup_fmap, Hb.
    simpl. rewrite Hpc. reflexivity.
Qed.

Lemma foldl_Qmax_ge (q : Q) (r : list Q) : (q <= foldl Qmax q r)%Q.
Proof.
  revert q. induction r as [|x r IH]; intros q; simpl; [apply Qle_refl |].
  eapply Qle_trans; [apply Q.le_max_l | apply IH].
Qed.








(** ** The anatomy of a trade *)

Lemma decide_action_cases_full (m : num) (pos : option Position)
    (row prev : Row) :
  (decide_action m pos row prev = Hold)
  ∨ (pos = None ∧ entry_signal row prev = true
     ∧ decide_action m pos row prev = Enter (open_position m row))
  ∨ (∃ q r x, pos = Some q ∧ exit_signal q row prev = Some (r, x)
              ∧ decide_action m pos row prev
                = Exit (close_position q row r x)).
Proof.
  destruct pos as [q|]; simpl.
  - destruct (exit_signal q row prev) as [[r x]|] eqn:E.
    + right. right. exists q, r, x.
      split; [reflexivity |]. split; [exact E | reflexivity].
    + left. reflexivity.
  - destruct (entry_signal row prev) eqn:E.
    + right. left. repeat split.
    + left. reflexivity.
Qed.

(** Every fill was opened by the entry branch on the row of its entry bar
    and closed by the exit branch, on the position it opened, on the row of
    its exit bar. *)
Lemma fills_anatomy (m : num) (fr : Frame) (ixs : list Z)
    (pos : option Position) (opened : option (Z * Position))
    (j : list (Z * Action)) (f : Fill) :
  journal m fr ixs pos = Ok j → tracks opened pos → In f (fills opened j) →
  (opened = Some (fill_entry_bar f, fill_opened f)
   ∨ ∃ row prev,
       iloc fr (fill_entry_bar f) = Ok row
       ∧ iloc fr (fill_entry_bar f - 1) = Ok prev
       ∧ entry_signal row prev = true
       ∧ fill_opened f = open_position m row)
  ∧ ∃ row prev r x,
      iloc fr (fill_exit_bar f) = Ok row
      ∧ iloc fr (fill_exit_bar f - 1) = Ok prev
      ∧ exit_signal (fill_opened f) row prev = Some (r, x)
      ∧ fill_trade f = close_position (fill_opened f) row r x.
Proof.
  revert pos opened j.
  induction ixs as [|i ixs IH]; intros pos opened j H Ht Hin.
  - injection H as <-. destruct Hin.
  - apply journal_cons_inv in H
      as (row & prev & j' & Hrow & Hprev & -> & Hj').
    destruct (decide_action_cases_full m pos row prev)
      as [Ha|[(-> & Hsig & Ha)|(q & r & x & -> & Hsig & Ha)]];
      rewrite Ha in *; simpl in *.
    + exact (IH _ _ _ Hj' Ht Hin).
    + destruct (IH _ (Some (i, open_position m row)) _ Hj' eq_refl Hin)
        as ([Ho|He] & Hx).
      * injection Ho as Hi Hp. split; [| exact Hx]. right.
        exists row, prev. rewrite <- Hi, <- Hp. repeat split; assumption.
      * split; [right; exact He | exact Hx].
    + destruct opened as [[e p]|]; [| discriminate Ht].
      injection Ht as ->. destruct Hin as [<-|Hin].
      * simpl. split; [left; reflexivity |].
        exists row, prev, r, x. repeat split; assumption.
      * destruct (IH _ None _ Hj' eq_refl Hin) as ([Ho|He] & Hx);
          [discriminate Ho |].
        split; [right; exact He | exact Hx].
Qed.

(** The ledger of a run, read as fills of its journal. *)
Lemma ledger_fills (df : DataFrame) (cfg : Params) (ledger : list Trade) :
  run_backtest df cfg = Ok ledger →
  ∃ fr j,
    indicators df cfg = Ok fr
    ∧ bar_journal df cfg = Ok j
    ∧ journal (atr_multiplier cfg) fr
        (range (ma_slow cfg) (Z.of_nat (length df))) None = Ok j
    ∧ ledger = map fill_trade (fills None j)
    ∧ chained (ma_slow cfg) (fills None j).
Proof.
  rewrite run_backtest_journal. intros H.
  apply bind_Ok in H as (j & Hj & H). injection H as <-.
  destruct (bar_journal_indicators df cfg j Hj) as (fr & E & Hjr).
  exists fr, j. repeat split; try assumption.
  - symmetry. apply (fills_exits _ _ _ _ None _ Hjr). reflexivity.
  - exact (proj1 (fills_chained _ _ _ _ _ (ma_slow cfg) Hjr
                    (range_increasing _ _)) eq_refl).
Qed.


Lemma exit_signal_NaN_stop (p : Position) (row prev : Row) (r : Reason)
    (x : num) :
  stop_loss p = NaN → exit_signal p row prev = Some (r, x) →
  r = TrendReversal ∧ x = r_close row.
Proof.
  unfold exit_signal. intros ->.
  replace (fle (r_low row) NaN) with false by (destruct (r_low row); reflexivity).
  destruct (r_uptrend prev && negb (r_uptrend row)); [| discriminate].
  intros [= <- <-]. split; reflexivity.
Qed.

(** ** A stop that is not a number *)

(** A position entered while the average true range is still missing
    (entry bar below [atr_period - 1]) has a NaN stop level, which no low
    ever reaches: the trade that closes it is a trend reversal, filled at
    the close of its exit bar. *)
Theorem missing_atr_disables_stop (df : DataFrame) (cfg : Params)
    (j : list (Z * Action)) (f : Fill) :
  bar_journal df cfg = Ok j → In f (fills None j) →
  fill_entry_bar f + 1 < atr_period cfg →
  stop_loss (fill_opened f) = NaN
  ∧ t_reason (fill_trade f) = TrendReversal
  ∧ date_at df (fill_exit_bar f) = Some (t_exit_date (fill_trade f))
  ∧ ∃ b, df !! Z.to_nat (fill_exit_bar f) = Some b
         ∧ t_exit_price (fill_trade f) = b_close b.
Proof.
  intros Hj Hf Hearly.
  destruct (bar_journal_indicators df cfg j Hj) as (fr & E & Hjr).
  destruct (fills_anatomy _ _ _ _ None _ f Hjr eq_refl Hf)
    as ([Ho|(row & prev & Hrow & _ & _ & Hp)]
        & rowx & prevx & r & x & Hrowx & _ & Hsig & Ht);
    [discriminate Ho |].
  destruct (fills_sound _ _ _ _ None _ f Hjr eq_refl Hf)
    as ([Ho|He] & Hx & _); [discriminate Ho |].
  destruct (journal_enter_date df cfg fr j _ _ E Hj He) as (Hs & _ & _).
  destruct (journal_exit_date df cfg fr j _ _ E Hj Hx) as (Hsx & _ & Hdx).
  assert (stop_loss (fill_opened f) = NaN) as Hnan.
  { rewrite Hp. simpl. apply iloc_nonneg in Hrow; [| lia].
    destruct (indicators_row_values df cfg fr _ row E Hrow)
      as (Hk & _ & _ & ->).
    rewrite window_mean_warmup;
      [| rewrite true_range_length; exact Hk | left; lia].
    destruct (atr_multiplier cfg), (r_close row); reflexivity. }
  destruct (exit_signal_NaN_stop _ _ _ _ _ Hnan Hsig) as [-> ->].
  split; [exact Hnan |]. rewrite Ht. simpl.
  split; [reflexivity |]. split; [rewrite Ht in Hdx; exact Hdx |].
  apply iloc_nonneg in Hrowx; [| lia].
  destruct (indicators_row df cfg fr _ rowx E Hrowx)
    as (_ & b & Hb & _ & _ & _ & Hc).
  exists b. split; [exact Hb | exact Hc].
Qed.

(** [washout] again, with an ATR period of 5: the low of the last bar would
    have touched a stop of 90, but the stop is NaN and the exit is a trend
    reversal. *)
Lemma missing_atr_disables_stop_witness :
  ∃ j f,
    bar_journal washout slow_atr = Ok j ∧ In f (fills None j)
    ∧ fill_entry_bar f + 1 < atr_period slow_atr
    ∧ stop_loss (fill_opened f) = NaN
    ∧ t_reason (fill_trade f) = TrendReversal.
Proof.
  eexists. eexists.
  split; [vm_compute; reflexivity |].
  split; [vm_compute; left; reflexivity |].
  split; [reflexivity |].
  destruct (missing_atr_disables_stop washout slow_atr _ _ eq_refl
              (or_introl eq_refl) eq_refl) as (Hnan & Hr & _).
  split; [exact Hnan | exact Hr].
Defined.

(** ** Stops only lose *)





(** ** Dates of the ledger *)

Lemma date_at_Some (df : DataFrame) (i : Z) (d : date) :
  date_at df i = Some d →
  0 <= i ∧ ∃ b, df !! Z.to_nat i = Some b ∧ b_date b = d.
Proof.
  unfold date_at. case_decide as Hi; [| discriminate].
  destruct (df !! Z.to_nat i) as [b|]; [| discriminate].
  intros [= <-]. split; [exact Hi |]. exists b. split; reflexivity.
Qed.

(** On bars sorted by date without duplicates, every trade exits at a later
    date than it enters, and every trade enters at a later date than the
    trade before it exits: the ledger is in chronological order. *)
Theorem ledger_dates_increase (df : DataFrame) (cfg : Params)
    (ledger : list Trade) :
  dates_increasing df → run_backtest df cfg = Ok ledger →
  (∀ t, In t ledger → t_entry_date t < t_exit_date t)
  ∧ (∀ k t u, ledger !! k = Some t → ledger !! S k = Some u →
       t_exit_date t < t_entry_date u).
Proof.
  intros Hsorted Hrun.
  destruct (ledger_fills df cfg ledger Hrun)
    as (fr & j & E & Hj & Hjr & -> & Hch).
  assert (∀ f, In f (fills None j) →
            ∃ be bx,
              df !! Z.to_nat (fill_entry_bar f) = Some be
              ∧ df !! Z.to_nat (fill_exit_bar f) = Some bx
              ∧ b_date be = t_entry_date (fill_trade f)
              ∧ b_date bx = t_exit_date (fill_trade f)
              ∧ 0 <= fill_entry_bar f < fill_exit_bar f) as Hbars.
  { intros f Hf.
    destruct (fills_sound _ _ _ _ None _ f Hjr eq_refl Hf)
      as ([Ho|He] & Hx & Hd & _); [discriminate Ho |].
    destruct (journal_enter_date df cfg fr j _ _ E Hj He) as (Hs & _ & Hde).
    destruct (journal_exit_date df cfg fr j _ _ E Hj Hx) as (_ & _ & Hdx).
    apply date_at_Some in Hde as (_ & be & Hbe & Hdbe).
    apply date_at_Some in Hdx as (_ & bx & Hbx & Hdbx).
    destruct (chained_bounds _ _ f Hch Hf) as [_ Hlt].
    assert (0 <= fill_entry_bar f < fill_exit_bar f) as Hbound
      by (clear -Hs Hlt; lia).
    exists be, bx. rewrite Hd.
    split; [exact Hbe |]. split; [exact Hbx |]. split; [exact Hdbe |].
    split; [exact Hdbx | exact Hbound]. }
  split.
  - intros t Hin. apply in_map_iff in Hin as (f & <- & Hf).
    destruct (Hbars f Hf) as (be & bx & Hbe & Hbx & <- & <- & Hlt).
    assert (Z.to_nat (fill_entry_bar f) < Z.to_nat (fill_exit_bar f))%nat
      as Hnat by (clear -Hlt; lia).
    exact (Hsorted _ _ _ _ Hnat Hbe Hbx).
  - intros k t u Ht Hu.
    change (map fill_trade ?l) with (fill_trade <$> l) in Ht, Hu.
    rewrite list_lookup_fmap in Ht, Hu.
    destruct (fills None j !! k) as [f|] eqn:Ef; [| discriminate Ht].
    destruct (fills None j !! S k) as [g|] eqn:Eg; [| discriminate Hu].
    injection Ht as <-. injection Hu as <-.
    pose proof (chained_next _ _ k f g Hch Ef Eg) as Hnext.
    destruct (Hbars f) as (_ & bx & _ & Hbx & _ & <- & Hf0).
    { apply list_elem_of_In. eapply list_elem_of_lookup_2. exact Ef. }
    destruct (Hbars g) as (be & _ & Hbe & _ & <- & _ & Hg0).
    { apply list_elem_of_In. eapply list_elem_of_lookup_2. exact Eg. }
    assert (Z.to_nat (fill_exit_bar f) < Z.to_nat (fill_entry_bar g))%nat
      as Hnat by (clear -Hnext Hf0 Hg0; lia).
    exact (Hsorted _ _ _ _ Hnat Hbx Hbe).
Qed.

(** ** How many trades *)

Lemma chained_span (lo hi : Z) (fs : list Fill) :
  chained lo fs → (∀ f, In f fs → fill_exit_bar f < hi) →
  fs ≠ [] → lo + 2 * Z.of_nat (length fs) <= hi.
Proof.
  revert lo. induction fs as [|f fs IH]; intros lo Hc Hhi Hne;
    [congruence |].
  destruct Hc as (H1 & H2 & H3).
  destruct fs as [|g fs].
  - specialize (Hhi f (or_introl eq_refl)). simpl. lia.
  - assert (fill_exit_bar f + 1 + 2 * Z.of_nat (length (g :: fs)) <= hi)
      as Hrest.
    { apply IH; [exact H3 | | discriminate].
      intros h Hh. apply Hhi. right. exact Hh. }
    change (length (f :: g :: fs)) with (S (length (g :: fs))). lia.
Qed.

(** A position spans at least two bars of the loop and positions do not
    overlap, so a run emits at most one trade per two bars it visits. *)
Theorem trade_count_bound (df : DataFrame) (cfg : Params)
    (ledger : list Trade) :
  run_backtest df cfg = Ok ledger →
  2 * Z.of_nat (length ledger)
  <= Z.max 0 (Z.of_nat (length df) - ma_slow cfg).
Proof.
  intros Hrun.
  destruct (ledger_fills df cfg ledger Hrun)
    as (fr & j & E & Hj & Hjr & -> & Hch).
  rewrite length_map.
  destruct (fills None j) as [|f fs] eqn:Ef; [simpl; lia |].
  rewrite <- Ef in *.
  assert (ma_slow cfg + 2 * Z.of_nat (length (fills None j))
          <= Z.of_nat (length df)) as Hspan.
  { apply chained_span; [exact Hch | | rewrite Ef; discriminate].
    intros g Hg.
    destruct (fills_sound _ _ _ _ None _ g Hjr eq_refl Hg)
      as (_ & Hx & _).
    destruct (journal_exit_date df cfg fr j _ _ E Hj Hx) as (_ & Hlt & _).
    exact Hlt. }
  lia.
Qed.

Lemma two_rallies_sorted : dates_increasing two_rallies.
Proof.
  intros i j b b' Hij Hi Hj. unfold two_rallies, rally in *. simpl in *.
  do 7 (destruct i as [|i];
        [ do 7 (destruct j as [|j];
                [ first [ exfalso; clear -Hij; lia
                        | injection Hi as <-; injection Hj as <-;
                          reflexivity ] | ]);
          discriminate Hj | ]).
  discriminate Hi.
Defined.

(** The two trades of [two_rallies]: dates 3 to 5, then 6 to 7. *)
Lemma ledger_dates_increase_witness :
  ∃ t u,
    run_backtest two_rallies tight = Ok [t; u]
    ∧ t_entry_date t < t_exit_date t
    ∧ t_exit_date t < t_entry_date u
    ∧ t_entry_date u < t_exit_date u.
Proof.
  eexists. eexists. split; [vm_compute; reflexivity |].
  destruct (ledger_dates_increase two_rallies tight _ two_rallies_sorted
              eq_refl) as [Hin Hnext].
  split; [apply Hin; left; reflexivity |].
  split; [exact (Hnext 0%nat _ _ eq_refl eq_refl) |].
  apply Hin. right. left. reflexivity.
Defined.

Lemma trade_count_bound_witness :
  ∃ ledger,
    run_backtest two_rallies tight = Ok ledger
    ∧ length ledger = 2%nat
    ∧ 2 * Z.of_nat (length ledger)
      <= Z.max 0 (Z.of_nat (length two_rallies) - ma_slow tight).
Proof.
  eexists. split; [vm_compute; reflexivity |]. split; [reflexivity |].
  exact (trade_count_bound two_rallies tight _ eq_refl).
Defined.

(** ** No look-ahead *)

Lemma window_at_take (s : list num) (w i k : nat) :
  (S i ≤ k)%nat → window_at (take k s) w i = window_at s w i.
Proof.
  intros Hk. unfold window_at. rewrite take_take.
  replace (Nat.min (S i) k) with (S i) by lia. reflexivity.
Qed.

Lemma lookup_map {A B} (f : A → B) (l : list A) (i : nat) :
  map f l !! i = f <$> l !! i.
Proof. exact (list_lookup_fmap f l i). Qed.

Lemma rolling_mean_take (s r : list num) (w : Z) (k : nat) :
  rolling_mean s w = Ok r → rolling_mean (take k s) w = Ok (take k r).
Proof.
  unfold rolling_mean. case_decide as Hw; [discriminate |].
  intros [= <-]. f_equal. unfold Series. apply list_eq. intros i.
  rewrite lookup_take, !lookup_map, length_take.
  destruct (decide (i < k)%nat) as [Hik|Hik].
  - destruct (decide (i < length s)%nat) as [His|His].
    + rewrite !lookup_seq_lt by lia. simpl.
      rewrite window_at_take by lia. reflexivity.
    + rewrite !lookup_seq_ge by lia. reflexivity.
  - rewrite lookup_seq_ge by lia. reflexivity.
Qed.

Lemma prev_close_take (df : list Bar) (i k : nat) :
  (i < k)%nat → prev_close (take k df) i = prev_close df i.
Proof.
  intros Hik. destruct i as [|i]; [reflexivity |].
  unfold prev_close, DataFrame. rewrite lookup_take_lt by lia. reflexivity.
Qed.

Lemma true_range_take (df : list Bar) (k : nat) :
  true_range (take k df) = take k (true_range df).
Proof.
  apply list_eq. intros i. rewrite lookup_take.
  destruct (decide (i < k)%nat) as [Hik|Hik].
  - destruct (df !! i) as [b|] eqn:Hb.
    + rewrite (true_range_lookup df i b Hb).
      rewrite (true_range_lookup (take k df) i b)
        by (rewrite lookup_take_lt by exact Hik; exact Hb).
      rewrite prev_close_take by exact Hik. reflexivity.
    + apply lookup_ge_None in Hb.
      rewrite !(proj2 (lookup_ge_None _ _));
        rewrite ?true_range_length, ?length_take; [reflexivity | lia | lia].
  - apply lookup_ge_None. rewrite true_range_length, length_take. lia.
Qed.

Lemma add_columns_take (df : list Bar) (f s a : list num) (u : list bool)
    (k : nat) :
  add_columns (take k df) (take k f) (take k s) (take k a) (take k u)
  = take k (add_columns df f s a u).
Proof.
  revert k f s a u. induction df as [|b df IH]; intros k f s a u.
  - rewrite take_nil. simpl. rewrite take_nil. reflexivity.
  - destruct k as [|k]; [reflexivity |].
    destruct f as [|x f]; [reflexivity |].
    destruct s as [|y s]; [reflexivity |].
    destruct a as [|z a]; [reflexivity |].
    destruct u as [|v u]; [reflexivity |].
    simpl. f_equal. apply IH.
Qed.

(** The indicator columns of a truncated history are the truncated columns
    of the full history. *)
Lemma indicators_take (df : DataFrame) (cfg : Params) (k : nat) :
  match indicators df cfg with
  | Ok fr => indicators (take k df) cfg = Ok (take k fr)
  | Err e => indicators (take k df) cfg = Err e
  end.
Proof.
  unfold indicators, calc_atr.
  change (map b_close (take k df)) with (b_close <$> take k df).
  rewrite fmap_take, true_range_take.
  change (b_close <$> df) with (map b_close df).
  destruct (rolling_mean_cases (map b_close df) (ma_fast cfg))
    as [[Hf Ef]|[Hf [f [Ef _]]]]; rewrite Ef; simpl.
  { rewrite (rolling_mean_Err _ (ma_fast cfg) Hf). reflexivity. }
  rewrite (rolling_mean_take _ _ _ k Ef). simpl.
  destruct (rolling_mean_cases (map b_close df) (ma_slow cfg))
    as [[Hs Es]|[Hs [s [Es _]]]]; rewrite Es; simpl.
  { rewrite (rolling_mean_Err _ (ma_slow cfg) Hs). reflexivity. }
  rewrite (rolling_mean_take _ _ _ k Es). simpl.
  destruct (rolling_mean_cases (true_range df) (atr_period cfg))
    as [[Ha Ea]|[Ha [a [Ea _]]]]; rewrite Ea; simpl.
  { rewrite (rolling_mean_Err _ (atr_period cfg) Ha). reflexivity. }
  rewrite (rolling_mean_take _ _ _ k Ea). simpl.
  rewrite <- zip_with_take, add_columns_take. reflexivity.
Qed.

Lemma iloc_take (fr : list Row) (k : nat) (i : Z) :
  (k ≤ length fr)%nat → 0 <= i < Z.of_nat k →
  iloc (take k fr) i = iloc fr i.
Proof.
  intros Hk Hi. unfold iloc, Frame. rewrite length_take.
  replace (Nat.min k (length fr)) with k by lia.
  destruct (decide (i < 0)) as [Hn|_]; [lia |].
  rewrite lookup_take_lt by lia.
  repeat case_decide; try lia; reflexivity.
Qed.

Lemma step_ext (m : num) (fr1 fr2 : Frame) (st : State) (i : Z) :
  iloc fr1 i = iloc fr2 i → iloc fr1 (i - 1) = iloc fr2 (i - 1) →
  step m fr1 st i = step m fr2 st i.
Proof. intros H1 H2. unfold step. rewrite H1, H2. reflexivity. Qed.

Lemma loop_ext (m : num) (fr1 fr2 : Frame) (ixs : list Z) (st : State) :
  (∀ i st', In i ixs → step m fr1 st' i = step m fr2 st' i) →
  loop m fr1 ixs st = loop m fr2 ixs st.
Proof.
  revert st. induction ixs as [|i ixs IH]; intros st H; [reflexivity |].
  simpl. rewrite (H i st (or_introl eq_refl)).
  destruct (step m fr2 st i) as [st1|e]; [| reflexivity].
  simpl. apply IH. intros k st' Hk. apply H. right. exact Hk.
Qed.

Lemma loop_no_uptrend (m : num) (fr : Frame) (ixs : list Z) :
  (∀ k row, fr !! k = Some row → r_uptrend row = false) →
  (∀ i, In i ixs → 0 <= i < Z.of_nat (length fr)) →
  loop m fr ixs initial = Ok initial.
Proof.
  intros Hup Hix. destruct (journal_total m fr ixs None Hix) as [j Hj].
  rewrite loop_journal. simpl. rewrite Hj. simpl.
  destruct (holds_keep None j (journal_no_uptrend m fr ixs j Hup Hj))
    as [-> ->].
  reflexivity.
Qed.

Lemma zero_window_no_uptrend (df : DataFrame) (cfg : Params) (fr : Frame)
    (k : nat) (row : Row) :
  indicators df cfg = Ok fr → ma_fast cfg = 0 ∨ ma_slow cfg = 0 →
  fr !! k = Some row → r_uptrend row = false.
Proof.
  intros E Hzero Hk.
  destruct (indicators_row df cfg fr k row E Hk) as (-> & _).
  destruct (indicators_row_values df cfg fr k row E Hk)
    as (Hlen & -> & -> & _).
  apply fgt_NaN. destruct Hzero as [Hz|Hz]; rewrite Hz.
  - left. rewrite window_mean_warmup;
      [reflexivity | rewrite length_map; exact Hlen | right; reflexivity].
  - right. rewrite window_mean_warmup;
      [reflexivity | rewrite length_map; exact Hlen | right; reflexivity].
Qed.

(** The state the loop has reached before bar [k] is the final state of a
    run on the first [k] bars alone. *)
Lemma truncated_run_state (df : DataFrame) (cfg : Params) (k : nat) :
  (k ≤ length df)%nat →
  final_state (take k df) cfg = state_before df cfg (Z.of_nat k).
Proof.
  intros Hk. pose proof (indicators_take df cfg k) as Htake.
  unfold final_state, state_before.
  destruct (indicators df cfg) as [fr|e] eqn:E; rewrite Htake;
    [| reflexivity].
  simpl. pose proof (indicators_length _ _ _ E) as Hlen.
  unfold Frame in *. rewrite length_take.
  replace (Nat.min k (length fr)) with k by lia.
  assert (0 <= ma_slow cfg) as Hs.
  { assert (∃ fr', indicators df cfg = Ok fr') as H by (eexists; exact E).
    apply indicators_Ok_iff in H. lia. }
  destruct (decide (ma_slow cfg = 0)) as [Hz|Hz].
  - rewrite !loop_no_uptrend; [reflexivity | | | |].
    + intros i row Hi.
      exact (zero_window_no_uptrend df cfg fr i row E (or_intror Hz) Hi).
    + intros i Hi. apply range_elem in Hi. lia.
    + intros i row Hi. apply lookup_take_Some in Hi as [Hi _].
      exact (zero_window_no_uptrend df cfg fr i row E (or_intror Hz) Hi).
    + intros i Hi. apply range_elem in Hi. rewrite length_take. lia.
  - apply loop_ext. intros i st' Hi. apply range_elem in Hi.
    apply step_ext; apply iloc_take; lia.
Qed.

(** The engine never looks ahead.  Run on the first [k] bars of a history,
    it ends in the state the run on the whole history has reached before
    bar [k], and its ledger is a prefix of the ledger of the whole history:
    later bars only ever append trades. *)
Theorem no_look_ahead (df : DataFrame) (cfg : Params) (k : nat)
    (ledger : list Trade) :
  (k ≤ length df)%nat → run_backtest df cfg = Ok ledger →
  final_state (take k df) cfg = state_before df cfg (Z.of_nat k)
  ∧ ∃ early late,
      run_backtest (take k df) cfg = Ok early ∧ ledger = early ++ late.
Proof.
  intros Hk Hrun. pose proof (truncated_run_state df cfg k Hk) as Hstate.
  split; [exact Hstate |].
  unfold run_backtest at 1. rewrite Hstate.
  rewrite run_backtest_journal in Hrun.
  apply bind_Ok in Hrun as (j & Hj & Hrun). injection Hrun as <-.
  destruct (bar_journal_indicators df cfg j Hj) as (fr & E & _).
  destruct (decide (ma_slow cfg <= Z.of_nat k)) as [Hs|Hs].
  - rewrite state_before_journal.
    rewrite (journal_before_prefix df cfg j (Z.of_nat k) Hj) by lia.
    simpl. eexists. exists (exits (drop (Z.to_nat (Z.of_nat k - ma_slow cfg)) j)).
    split; [reflexivity |].
    rewrite <- exits_app, take_drop. reflexivity.
  - unfold state_before. rewrite E. simpl. rewrite range_nil by lia.
    simpl. exists [], (exits j). split; reflexivity.
Qed.

(** [rally] is [two_rallies] cut after five bars: its one trade is the
    first of the two. *)
Lemma no_look_ahead_witness :
  ∃ t u,
    (5 ≤ length two_rallies)%nat
    ∧ run_backtest two_rallies tight = Ok [t; u]
    ∧ run_backtest (take 5 two_rallies) tight = Ok [t]
    ∧ final_state (take 5 two_rallies) tight
      = state_before two_rallies tight 5.
Proof.
  eexists. eexists.
  assert (5 ≤ length two_rallies)%nat as Hk by (vm_compute; lia).
  split; [exact Hk |]. split; [vm_compute; reflexivity |].
  split; [vm_compute; reflexivity |].
  exact (proj1 (no_look_ahead two_rallies tight 5 _ Hk eq_refl)).
Defined.

(** * The reports *)

(** ** [print_stats] of strategy/strat_temp.py *)

Lemma filter_length_le {A} (f : A → bool) (l : list A) :
  (length (List.filter f l) ≤ length l)%nat.
Proof.
  induction l as [|x l IH]; simpl; [lia |].
  destruct (f x); simpl; lia.
Qed.

Lemma inject_Z_nat_pos (n : nat) : (0 < n)%nat → (0 < inject_Z (Z.of_nat n))%Q.
Proof.
  intros Hn. replace 0%Q with (inject_Z 0) by reflexivity.
  rewrite <- Zlt_Qlt. lia.
Qed.

(** On an empty ledger the report is the single no-trades line and nothing
    is divided; on any other ledger it shows the number of trades and a win
    rate that is a number between 0 and 100. *)
Theorem print_stats_win_rate (trades : list Trade) (ticker : string) :
  (trades = [] → print_stats trades ticker = [NoTradesLine ticker])
  ∧ (trades ≠ [] →
     In (CountLine (length trades)) (print_stats trades ticker)
     ∧ ¬ In (NoTradesLine ticker) (print_stats trades ticker)
     ∧ ∃ w, In (WinRateLine (Fin w)) (print_stats trades ticker)
            ∧ (0 <= w <= 100)%Q).
Proof.
  split; [intros ->; reflexivity |].
  intros Hne. destruct trades as [|t rest]; [congruence |].
  set (trades := t :: rest) in *.
  assert (0 < length trades)%nat as Hn by (simpl; lia).
  pose proof (filter_length_le
                (fun t => fgt (t_pnl_pct t) (of_Z 0)) trades) as Hw.
  fold (winning trades) in Hw.
  pose proof (inject_Z_nat_pos _ Hn) as Hpos.
  assert (Qeq_bool (inject_Z (Z.of_nat (length trades))) 0 = false) as Hnz.
  { destruct (Qeq_bool _ 0) eqn:Hz; [| reflexivity].
    apply Qeq_bool_eq in Hz. rewrite Hz in Hpos.
    exfalso. exact (Qlt_irrefl 0 Hpos). }
  split; [| split].
  - simpl. tauto.
  - simpl. intros H.
    repeat (destruct H as [H|H]; [discriminate H |]). exact H.
  - exists (inject_Z (Z.of_nat (length (winning trades)))
            / inject_Z (Z.of_nat (length trades)) * inject_Z 100)%Q.
    split.
    + unfold print_stats, trades. fold trades.
      cbn [fdiv fmul of_Z]. rewrite Hnz. simpl. tauto.
    + assert (0 <= inject_Z (Z.of_nat (length (winning trades))))%Q as Hw0.
      { replace 0%Q with (inject_Z 0) by reflexivity.
        rewrite <- Zle_Qle. lia. }
      assert (inject_Z (Z.of_nat (length (winning trades)))
              <= inject_Z (Z.of_nat (length trades)))%Q as Hwn.
      { rewrite <- Zle_Qle. lia. }
      set (a := inject_Z (Z.of_nat (length (winning trades)))) in *.
      set (n := inject_Z (Z.of_nat (length trades))) in *.
      assert (0 <= a / n)%Q as H0.
      { apply Qle_shift_div_l; [exact Hpos | lra]. }
      assert (a / n <= 1)%Q as H1.
      { apply Qle_shift_div_r; [exact Hpos | lra]. }
      change (inject_Z 100) with 100%Q. lra.
Qed.

Lemma foldl_Qmax_upper (q : Q) (r : list Q) (x : Q) :
  In x (q :: r) → (x <= foldl Qmax q r)%Q.
Proof.
  revert q. induction r as [|y r IH]; intros q Hx.
  - destruct Hx as [->|[]]. apply Qle_refl.
  - simpl. destruct Hx as [->|[->|Hx]].
    + eapply Qle_trans; [apply Q.le_max_l | apply foldl_Qmax_ge].
    + eapply Qle_trans; [apply Q.le_max_r | apply foldl_Qmax_ge].
    + apply IH. right. exact Hx.
Qed.

Lemma foldl_Qmin_le (q : Q) (r : list Q) : (foldl Qmin q r <= q)%Q.
Proof.
  revert q. induction r as [|x r IH]; intros q; simpl; [apply Qle_refl |].
  eapply Qle_trans; [apply IH | apply Q.le_min_l].
Qed.

Lemma foldl_Qmin_lower (q : Q) (r : list Q) (x : Q) :
  In x (q :: r) → (foldl Qmin q r <= x)%Q.
Proof.
  revert q. induction r as [|y r IH]; intros q Hx.
  - destruct Hx as [->|[]]. apply Qle_refl.
  - simpl. destruct Hx as [->|[->|Hx]].
    + eapply Qle_trans; [apply foldl_Qmin_le | apply Q.le_min_l].
    + eapply Qle_trans; [apply foldl_Qmin_le | apply Q.le_min_r].
    + apply IH. right. exact Hx.
Qed.

Lemma observations_In (l : list num) (q : Q) :
  In (Fin q) l → In q (observations l).
Proof.
  induction l as [|[|x] l IH]; simpl; intros H.
  - destruct H.
  - destruct H as [H|H]; [discriminate H | apply IH, H].
  - destruct H as [[= ->]|H]; [left; reflexivity | right; apply IH, H].
Qed.

(** When every [pnl_pct] of a non-empty ledger is a number, the mean, the
    best, the worst and the total the report shows are numbers, and the
    worst and the best bracket the [pnl_pct] of every trade. *)
Theorem print_stats_extremes (trades : list Trade) (ticker : string) :
  trades ≠ [] →
  Forall (fun t => is_nan (t_pnl_pct t) = false) trades →
  ∃ lo mean hi total,
    In (MinLine (Fin lo)) (print_stats trades ticker)
    ∧ In (MeanLine (Fin mean)) (print_stats trades ticker)
    ∧ In (MaxLine (Fin hi)) (print_stats trades ticker)
    ∧ In (SumLine (Fin total)) (print_stats trades ticker)
    ∧ ∀ t, In t trades →
        ∃ q, t_pnl_pct t = Fin q ∧ (lo <= q <= hi)%Q.
Proof.
  intros Hne Hfin. destruct trades as [|t rest]; [congruence |].
  set (trades := t :: rest) in *.
  set (s := map t_pnl_pct trades).
  pose proof (proj1 (Forall_forall _ _) Hfin) as Hall.
  assert (length (observations s) = length trades) as Hlen.
  { unfold s. rewrite observations_finite; [apply length_map |].
    apply Forall_forall. intros x Hx.
    apply list_elem_of_In, in_map_iff in Hx as (u & <- & Hu).
    apply Hall, list_elem_of_In, Hu. }
  destruct (observations s) as [|q r] eqn:Hobs; [discriminate Hlen |].
  exists (foldl Qmin q r),
         (Qsum (q :: r) / inject_Z (Z.of_nat (length trades)))%Q,
         (foldl Qmax q r), (Qsum (q :: r)).
  assert (print_stats trades ticker
          = [ RuleLine; TitleLine ticker; RuleLine;
              CountLine (length trades);
              WinRateLine
                (fmul (fdiv (of_Z (Z.of_nat (length (winning trades))))
                            (of_Z (Z.of_nat (length trades))))
                      (of_Z 100));
              MeanLine (Fin (Qsum (q :: r)
                             / inject_Z (Z.of_nat (length trades))));
              MaxLine (Fin (foldl Qmax q r));
              MinLine (Fin (foldl Qmin q r));
              SumLine (Fin (Qsum (q :: r))) ]) as ->.
  { unfold print_stats, trades. fold trades. fold s.
    unfold series_mean, series_max, series_min, series_sum, row_max,
      window_mean.
    rewrite Hobs, <- Hlen.
    case_decide as Hd; [reflexivity |]. simpl in Hd. lia. }
  split; [simpl; tauto |]. split; [simpl; tauto |].
  split; [simpl; tauto |]. split; [simpl; tauto |].
  intros u Hu.
  pose proof (Hall u (proj2 (list_elem_of_In _ _) Hu)) as Hnum.
  cbv beta in Hnum.
  destruct (t_pnl_pct u) as [|x] eqn:Hx; [discriminate Hnum |].
  exists x. split; [reflexivity |].
  assert (In x (q :: r)) as Hin.
  { rewrite <- Hobs. apply observations_In. unfold s.
    rewrite <- Hx. apply in_map, Hu. }
  split; [apply foldl_Qmin_lower, Hin | apply foldl_Qmax_upper, Hin].
Qed.

(** The report on the two trades of [two_rallies]. *)
Lemma print_stats_extremes_witness :
  ∃ ledger lo mean hi total,
    run_backtest two_rallies tight = Ok ledger ∧ ledger ≠ []
    ∧ In (MinLine (Fin lo)) (print_stats ledger "QQQ")
    ∧ In (MeanLine (Fin mean)) (print_stats ledger "QQQ")
    ∧ In (MaxLine (Fin hi)) (print_stats ledger "QQQ")
    ∧ In (SumLine (Fin total)) (print_stats ledger "QQQ")
    ∧ (lo <= hi)%Q.
Proof.
  assert (∃ ledger t,
            run_backtest two_rallies tight = Ok ledger ∧ ledger ≠ []
            ∧ In t ledger
            ∧ Forall (fun t => is_nan (t_pnl_pct t) = false) ledger)
    as (ledger & t & Hrun & Hne & Ht & Hfin).
  { eexists. eexists. split; [vm_compute; reflexivity |].
    split; [discriminate |]. split; [left; reflexivity |].
    repeat constructor. }
  destruct (print_stats_extremes ledger "QQQ" Hne Hfin)
    as (lo & mean & hi & total & H1 & H2 & H3 & H4 & H5).
  exists ledger, lo, mean, hi, total.
  split; [exact Hrun |]. split; [exact Hne |].
  split; [exact H1 |]. split; [exact H2 |]. split; [exact H3 |].
  split; [exact H4 |].
  destruct (H5 t Ht) as (q & _ & Hlo & Hhi).
  eapply Qle_trans; [exact Hlo | exact Hhi].
Defined.

(** ** [main] of strategy/strat_temp.py *)

Lemma default_run_total (df : DataFrame) :
  ∃ trades, run_backtest df (bind_params no_kwargs) = Ok trades.
Proof. apply run_backtest_total; discriminate. Qed.

Lemma main_loop_by_ticker (load_data : string → string → result DataFrame)
    (db_path : string) (tickers : list string)
    (all_trades : list (list TaggedTrade)) :
  (∀ t, In t tickers → ∃ df, load_data db_path t = Ok df) →
  ∃ all_trades',
    main_loop load_data db_path tickers all_trades
    = (flat_map (ticker_lines load_data db_path) tickers, Ok all_trades')
    ∧ concat all_trades'
      = concat all_trades
        ++ flat_map (ticker_rows load_data db_path) tickers.
Proof.
  revert all_trades. induction tickers as [|t rest IH]; intros acc Hdata.
  - exists acc. simpl. rewrite app_nil_r. split; reflexivity.
  - destruct (Hdata t (or_introl eq_refl)) as [df Hdf].
    assert (∀ u, In u rest → ∃ df', load_data db_path u = Ok df') as Hrest.
    { intros u Hu. apply Hdata. right. exact Hu. }
    destruct (default_run_total df) as [trades Hrun].
    cbn [main_loop flat_map]. unfold ticker_lines at 1, ticker_rows at 1.
    rewrite Hdf. destruct df as [|b df].
    + destruct (IH acc Hrest) as (all' & -> & Hall).
      exists all'. split; [reflexivity |].
      rewrite Hall. vm_compute in Hrun. injection Hrun as <-.
      reflexivity.
    + rewrite Hrun.
      destruct (IH (acc ++ [map (fun x => (x, t)) trades]) Hrest)
        as (all' & -> & Hall).
      exists all'. split; [reflexivity |].
      rewrite Hall, concat_app. simpl. rewrite app_nil_r, <- app_assoc.
      reflexivity.
Qed.

(** [main] treats the tickers one by one and in order.  When the database
    answers for every ticker, the call returns, never raising from the
    engine: its rows are the rows of each ticker in turn (the ledger of the
    engine under its default parameters, tagged with the ticker; none for a
    ticker without bars), and its output is the lines of each ticker in
    turn. *)
Theorem main_by_ticker (load_data : string → string → result DataFrame)
    (db_path : string) (tickers : list string) :
  (∀ t, In t tickers → ∃ df, load_data db_path t = Ok df) →
  main load_data (Some db_path) (Some tickers)
  = (flat_map (ticker_lines load_data db_path) tickers,
     Ok (flat_map (ticker_rows load_data db_path) tickers)).
Proof.
  intros Hdata. unfold main. cbn [default from_option id].
  destruct (main_loop_by_ticker load_data db_path tickers [] Hdata)
    as (all' & -> & Hall).
  f_equal. simpl in Hall. rewrite <- Hall.
  destruct all' as [|x all']; reflexivity.
Qed.

(** Two tickers with bars and one without, on [sample_db]. *)
Lemma main_by_ticker_witness :
  ∃ out rows,
    main sample_db (Some "stock_data.db") (Some ["QQQ"; "IBM"; "SPY"])
    = (out, Ok rows)
    ∧ map snd rows = ["QQQ"]
    ∧ map (fun r => t_reason r.1) rows = [StopLoss]
    ∧ In (NoDataLine "IBM") out ∧ In (NoTradesLine "SPY") out.
Proof.
  eexists. eexists.
  split.
  - apply (main_by_ticker sample_db "stock_data.db" ["QQQ"; "IBM"; "SPY"]).
    intros t Ht. unfold sample_db.
    destruct (String.eqb t "QQQ"); [eexists; reflexivity |].
    destruct (String.eqb t "SPY"); eexists; reflexivity.
  - split; [vm_compute; reflexivity |].
    split; [vm_compute; reflexivity |]. vm_compute. tauto.
Defined.

(** ** [get_stat] of backtest/vbt.py *)

Lemma get_stat_list_Some (stats : gmap string num) (keys : list string)
    (v : num) :
  VbtReport.get_stat_list stats keys = Some v
  ↔ ∃ before k after,
      keys = before ++ k :: after
      ∧ (∀ k', In k' before → stats !! k' = None)
      ∧ stats !! k = Some v.
Proof.
  induction keys as [|k keys IH]; simpl.
  - split; [discriminate |]. intros (before & k & after & H & _).
    destruct before; discriminate H.
  - destruct (stats !! k) as [x|] eqn:Hk; split.
    + intros [= ->]. exists [], k, keys. repeat split; [| exact Hk].
      intros k' [].
    + intros (before & k0 & after & Heq & Hnone & Hv).
      destruct before as [|b before]; simpl in Heq;
        injection Heq as Hb Hkeys; subst.
      * congruence.
      * rewrite (Hnone _ (or_introl eq_refl)) in Hk. discriminate Hk.
    + intros H. apply IH in H as (before & k0 & after & -> & Hnone & Hv).
      exists (k :: before), k0, after. repeat split; [| exact Hv].
      intros k' [<-|Hk']; [exact Hk | apply Hnone, Hk'].
    + intros (before & k0 & after & Heq & Hnone & Hv).
      destruct before as [|b before]; simpl in Heq;
        injection Heq as Hb Hkeys; subst.
      * congruence.
      * apply IH. exists before, k0, after. repeat split; [| exact Hv].
        intros k' Hk'. apply Hnone. right. exact Hk'.
Qed.

Lemma get_stat_list_None (stats : gmap string num) (keys : list string) :
  VbtReport.get_stat_list stats keys = None
  ↔ ∀ k, In k keys → stats !! k = None.
Proof.
  induction keys as [|k keys IH]; simpl.
  - split; [intros _ k [] | reflexivity].
  - destruct (stats !! k) as [x|] eqn:Hk; split.
    + discriminate.
    + intros H. rewrite (H k (or_introl eq_refl)) in Hk. discriminate Hk.
    + intros H k' [<-|Hk']; [exact Hk | apply IH; assumption].
    + intros H. apply IH. intros k' Hk'. apply H. right. exact Hk'.
Qed.

(** [get_stat] returns the value under the first of the candidate labels
    that the index holds, whatever later candidates hold, and [None]
    exactly when the index holds none of them; a single string is the
    lookup of that label. *)
Theorem get_stat_first_present (stats : gmap string num)
    (keys : list string) :
  (∀ v, VbtReport.get_stat stats (inr keys) = Some v
        ↔ ∃ before k after,
            keys = before ++ k :: after
            ∧ (∀ k', In k' before → stats !! k' = None)
            ∧ stats !! k = Some v)
  ∧ (VbtReport.get_stat stats (inr keys) = None
     ↔ ∀ k, In k keys → stats !! k = None)
  ∧ (∀ k, VbtReport.get_stat stats (inl k) = stats !! k).
Proof.
  split; [| split].
  - intros v. apply get_stat_list_Some.
  - apply get_stat_list_None.
  - intros k. simpl. destruct (stats !! k); reflexivity.
Qed.

(** A line of the report reads N/A exactly when none of its candidate
    labels is in the index or the first one present holds zero: a
    statistic that is zero is shown like one that is missing. *)
Theorem zero_statistic_shown_as_missing (stats : gmap string num)
    (keys : list string) :
  VbtReport.shown (VbtReport.get_stat stats (inr keys)) = None
  ↔ (∀ k, In k keys → stats !! k = None)
    ∨ ∃ before k after q,
        keys = before ++ k :: after
        ∧ (∀ k', In k' before → stats !! k' = None)
        ∧ stats !! k = Some (Fin q) ∧ (q == 0)%Q.
Proof.
  unfold VbtReport.shown, VbtReport.get_stat.
  destruct (VbtReport.get_stat_list stats keys) as [v|] eqn:Hg.
  - pose proof (proj1 (get_stat_list_Some stats keys v) Hg)
      as (before & k & after & Hkeys & Hnone & Hv).
    split.
    + destruct v as [|q]; simpl; [discriminate |].
      destruct (Qeq_bool q 0) eqn:Hz; simpl; [| discriminate].
      intros _. right. exists before, k, after, q.
      repeat split; try assumption. apply Qeq_bool_eq, Hz.
    + intros [Hall|(before' & k' & after' & q & Hkeys' & Hnone' & Hq & Hz)].
      * apply get_stat_list_None in Hall. congruence.
      * assert (VbtReport.get_stat_list stats keys = Some (Fin q)) as Hq'.
        { apply get_stat_list_Some. exists before', k', after'.
          repeat split; assumption. }
        rewrite Hq' in Hg. injection Hg as <-. simpl.
        rewrite (proj2 (Qeq_bool_iff q 0) Hz). reflexivity.
  - split; [| reflexivity]. intros _. left.
    apply get_stat_list_None, Hg.
Qed.

(** ** Columns the caller's frame already has *)

Lemma run_backtest_obj_ledger_witness :
  stale_store !! 1%positive
  = Some (mkFrameObj rally
            (<["uptrend" := BoolCol [true; true]]>
               {["ma_fast" := FloatCol [NaN]]}))
  ∧ (run_backtest_obj 1%positive tight stale_store).2
    = run_backtest rally tight.
Proof.
  split; [reflexivity |].
  apply (run_backtest_obj_ledger stale_store 1%positive
           (mkFrameObj rally
              (<["uptrend" := BoolCol [true; true]]>
                 {["ma_fast" := FloatCol [NaN]]}))).
  reflexivity.
Defined.
